(** * TextbookTracker: the progress-record model of [progress_tracker.py]
      and [progress_tracker_QFT.py], and what their operations guarantee.

    The two scripts are Tkinter programs.  Widgets, dialogs and the file
    picker are the outside world here: what the user typed or selected is an
    argument of the modelled function, and the message box a call ends with
    is its outcome.  Everything the scripts compute themselves (parsing,
    record serialisation, date arithmetic, the completion map) is modelled
    as it is written.

    Python values are dynamically typed.  The model keeps that where the
    scripts rely on it (JSON documents, record fields read back from a
    file) in the type [pyval]; an operation that Python refuses raises the
    same exception in the model, through the [result] monad. *)

From Stdlib Require Import List String Ascii ZArith QArith Qabs Bool Lia.
From Stdlib Require Import Permutation Sorted.
Import ListNotations.
Open Scope string_scope.
Open Scope Z_scope.

(** ** Exceptions *)

Module Py.

Inductive exn :=
| ValueError | KeyError | TypeError | AttributeError | IndexError
| ZeroDivisionError | JSONDecodeError | OSError.

Inductive result (A : Type) :=
| Ok (a : A)
| Raise (e : exn).
Arguments Ok {A} a.
Arguments Raise {A} e.

Definition bind {A B} (r : result A) (k : A -> result B) : result B :=
  match r with
  | Ok a => k a
  | Raise e => Raise e
  end.

Notation "x <- r ;; k" := (bind r (fun x => k))
  (at level 61, r at next level, right associativity).

(** [[f(x) for x in xs]]: the first exception ends the comprehension. *)
Fixpoint mapM {A B} (f : A -> result B) (xs : list A) : result (list B) :=
  match xs with
  | [] => Ok []
  | x :: xs' => y <- f x ;; ys <- mapM f xs' ;; Ok (y :: ys)
  end.

(** ** Strings

    Text is a [string] of bytes and the model covers ASCII text: the
    whitespace of [str.strip] and [str.split] is the ASCII part of Python's
    (TAB, LF, VT, FF, CR, FS, GS, RS, US and the space), [str.lower] maps A-Z,
    and a digit is one of 0-9. *)

Definition nl : string := String "010"%char "".
Definition tab : string := String "009"%char "".

Definition is_space (c : ascii) : bool :=
  let n := nat_of_ascii c in
  ((9 <=? n) && (n <=? 13) || (28 <=? n) && (n <=? 32))%nat.

Definition lower_char (c : ascii) : ascii :=
  let n := nat_of_ascii c in
  if ((65 <=? n) && (n <=? 90))%nat then ascii_of_nat (n + 32) else c.

Fixpoint lower (s : string) : string :=
  match s with
  | "" => ""
  | String c s' => String (lower_char c) (lower s')
  end.

Fixpoint lstrip (s : string) : string :=
  match s with
  | "" => ""
  | String c s' => if is_space c then lstrip s' else s
  end.

Fixpoint rstrip (s : string) : string :=
  match s with
  | "" => ""
  | String c s' =>
      match rstrip s' with
      | "" => if is_space c then "" else String c ""
      | r => String c r
      end
  end.

Definition strip (s : string) : string := lstrip (rstrip s).

Fixpoint startswith (p s : string) : bool :=
  match p, s with
  | "", _ => true
  | String a p', String b s' => Ascii.eqb a b && startswith p' s'
  | String _ _, "" => false
  end.

(** [s.split(sep)] for a one-character separator: never empty, and the
    empty pieces are kept. *)
Fixpoint split_on (sep : ascii) (s : string) : list string :=
  match s with
  | "" => [""]
  | String c s' =>
      if Ascii.eqb c sep then "" :: split_on sep s'
      else match split_on sep s' with
           | t :: ts => String c t :: ts
           | [] => [String c ""]
           end
  end.

(** [s.split()]: the maximal runs of characters that are not whitespace. *)
Fixpoint split_ws (s : string) : list string :=
  match s with
  | "" => []
  | String c s' =>
      if is_space c then split_ws s'
      else match s' with
           | "" => [String c ""]
           | String c' _ =>
               if is_space c' then String c "" :: split_ws s'
               else match split_ws s' with
                    | t :: ts => String c t :: ts
                    | [] => [String c ""]
                    end
           end
  end.

(** [xs[i]] on a list. *)
Definition list_getitem {A} (xs : list A) (i : nat) : result A :=
  match nth_error xs i with
  | Some x => Ok x
  | None => Raise IndexError
  end.

Definition digit_val (c : ascii) : option Z :=
  let n := nat_of_ascii c in
  if ((48 <=? n) && (n <=? 57))%nat then Some (Z.of_nat n - 48) else None.

Definition is_digit (c : ascii) : bool :=
  match digit_val c with Some _ => true | None => false end.

Fixpoint all_digits (s : string) : bool :=
  match s with
  | "" => true
  | String c s' => is_digit c && all_digits s'
  end.

(** [s.isdigit()]: at least one character, all of them digits. *)
Definition isdigit (s : string) : bool :=
  match s with
  | "" => false
  | _ => all_digits s
  end.

(** The digits of an integer literal after its first digit: the value read
    so far is [acc]; an underscore is allowed between two digits. *)
Fixpoint int_digits (acc : Z) (s : string) : option Z :=
  match s with
  | "" => Some acc
  | String c s' =>
      match digit_val c with
      | Some d => int_digits (acc * 10 + d) s'
      | None =>
          if Ascii.eqb c "_" then
            match s' with
            | String c2 s'' =>
                match digit_val c2 with
                | Some d => int_digits (acc * 10 + d) s''
                | None => None
                end
            | "" => None
            end
          else None
      end
  end.

Definition int_unsigned (s : string) : option Z :=
  match s with
  | String c s' =>
      match digit_val c with
      | Some d => int_digits d s'
      | None => None
      end
  | "" => None
  end.

(** [int(s)] on text: surrounding whitespace is dropped, one sign is
    allowed, anything else than a decimal literal is a [ValueError]. *)
Definition int (s : string) : result Z :=
  let t := strip s in
  let r := match t with
           | String "-" t' => option_map Z.opp (int_unsigned t')
           | String "+" t' => int_unsigned t'
           | _ => int_unsigned t
           end in
  match r with
  | Some z => Ok z
  | None => Raise ValueError
  end.

(** ** Values

    What [json.load] can return, and so what a record field read back from a
    file can hold.  JSON numbers are modelled as integers. *)

#[warnings="-register-all"]
Inductive pyval :=
| PNone
| PBool (b : bool)
| PInt (z : Z)
| PStr (s : string)
| PList (l : list pyval)
| PDict (d : list (string * pyval)).

(** A [dict] with text keys, in insertion order, one binding per key. *)
Definition dict (V : Type) := list (string * V).

Fixpoint dict_get {V} (k : string) (d : dict V) : option V :=
  match d with
  | [] => None
  | (k', v) :: d' => if String.eqb k k' then Some v else dict_get k d'
  end.

Definition dict_contains {V} (k : string) (d : dict V) : bool :=
  match dict_get k d with Some _ => true | None => false end.

(** [d[k] = v]: an existing key keeps its place, a new one goes last. *)
Fixpoint dict_set {V} (k : string) (v : V) (d : dict V) : dict V :=
  match d with
  | [] => [(k, v)]
  | (k', v') :: d' =>
      if String.eqb k k' then (k', v) :: d' else (k', v') :: dict_set k v d'
  end.

(** [del d[k]] when [k] is there, [d.pop(k, None)]. *)
Fixpoint dict_del {V} (k : string) (d : dict V) : dict V :=
  match d with
  | [] => []
  | (k', v') :: d' =>
      if String.eqb k k' then dict_del k d' else (k', v') :: dict_del k d'
  end.

(** [d[k]] on a [dict]. *)
Definition dict_getitem {V} (k : string) (d : dict V) : result V :=
  match dict_get k d with
  | Some v => Ok v
  | None => Raise KeyError
  end.

(** Truth value of a value in a condition. *)
Definition truthy (v : pyval) : bool :=
  match v with
  | PNone => false
  | PBool b => b
  | PInt z => negb (z =? 0)
  | PStr s => negb (String.eqb s "")
  | PList l => match l with [] => false | _ => true end
  | PDict d => match d with [] => false | _ => true end
  end.

(** [v[key]] with a text key. *)
Definition getitem (v : pyval) (key : string) : result pyval :=
  match v with
  | PDict d => dict_getitem key d
  | _ => Raise TypeError
  end.

(** [v[key] = x] with a text key. *)
Definition setitem (v : pyval) (key : string) (x : pyval) : result pyval :=
  match v with
  | PDict d => Ok (PDict (dict_set key x d))
  | _ => Raise TypeError
  end.

(** [v.get(key)]: only a [dict] has the method. *)
Definition get (v : pyval) (key : string) : result pyval :=
  match v with
  | PDict d => Ok (match dict_get key d with Some x => x | None => PNone end)
  | _ => Raise AttributeError
  end.

Fixpoint chars (s : string) : list pyval :=
  match s with
  | "" => []
  | String c s' => PStr (String c "") :: chars s'
  end.

(** [for x in v]: a list gives its elements, a [dict] its keys, text its
    characters; nothing else can be iterated. *)
Definition iter (v : pyval) : result (list pyval) :=
  match v with
  | PList l => Ok l
  | PDict d => Ok (map (fun kv => PStr (fst kv)) d)
  | PStr s => Ok (chars s)
  | _ => Raise TypeError
  end.

Fixpoint is_substring (p s : string) : bool :=
  startswith p s ||
  match s with
  | "" => false
  | String _ s' => is_substring p s'
  end.

Definition is_text (key : string) (v : pyval) : bool :=
  match v with PStr s => String.eqb s key | _ => false end.

(** [key in v] for a text [key]. *)
Definition contains (key : string) (v : pyval) : result bool :=
  match v with
  | PDict d => Ok (dict_contains key d)
  | PList l => Ok (existsb (is_text key) l)
  | PStr s => Ok (is_substring key s)
  | _ => Raise TypeError
  end.

(** An operand of arithmetic: an [int], or a [bool] counting as 0 or 1. *)
Definition as_number (v : pyval) : result Z :=
  match v with
  | PInt z => Ok z
  | PBool b => Ok (if b then 1 else 0)
  | _ => Raise TypeError
  end.

(** [a / b] on integers.  Python rounds the quotient to a double; the model
    keeps the exact rational. *)
Definition truediv (a b : Z) : result Q :=
  if b =? 0 then Raise ZeroDivisionError else Ok (inject_Z a / inject_Z b)%Q.

(** [i <= v]: the right operand must be a number. *)
Definition int_le (i : Z) (v : pyval) : result bool :=
  n <- as_number v ;; Ok (i <=? n).

(** [int(v)] on any value. *)
Definition int_val (v : pyval) : result Z :=
  match v with
  | PStr s => int s
  | PInt z => Ok z
  | PBool b => Ok (if b then 1 else 0)
  | _ => Raise TypeError
  end.

(** [xs[i]] for an integer [i]: a negative index counts from the end. *)
Definition index {A} (xs : list A) (i : Z) : result A :=
  let n := Z.of_nat (List.length xs) in
  let j := if i <? 0 then i + n else i in
  if (0 <=? j) && (j <? n) then list_getitem xs (Z.to_nat j)
  else Raise IndexError.

(** [v[k]] for any key [k].  A list or a text is indexed by an integer; an
    object is looked up, and a list or an object cannot be a key. *)
Definition subscript (v k : pyval) : result pyval :=
  match v, k with
  | PDict d, PStr key => dict_getitem key d
  | PDict _, (PList _ | PDict _) => Raise TypeError
  | PDict _, _ => Raise KeyError
  | PList l, PInt i => index l i
  | PList l, PBool b => index l (if b then 1 else 0)
  | PStr s, PInt i => index (chars s) i
  | PStr s, PBool b => index (chars s) (if b then 1 else 0)
  | _, _ => Raise TypeError
  end.

(** [k in d] for a [dict] keyed by text. *)
Definition in_dict {V} (k : pyval) (d : dict V) : result bool :=
  match k with
  | PStr key => Ok (dict_contains key d)
  | PList _ | PDict _ => Raise TypeError
  | _ => Ok false
  end.

(** Where [x], which came before every element of the sorted [l], goes. *)
Fixpoint insert_sorted {A} (k : Z) (x : A) (l : list (Z * A)) : list (Z * A) :=
  match l with
  | [] => [(k, x)]
  | (k', y) :: l' =>
      if k <=? k' then (k, x) :: l else (k', y) :: insert_sorted k x l'
  end.

(** [sorted(xs, key=key)]: the keys are computed first, in order, and the
    first exception ends the call; the sort is stable. *)
Definition sorted_by {A} (key : A -> result Z) (xs : list A) : result (list A) :=
  keys <- mapM (fun x => k <- key x ;; Ok (k, x)) xs ;;
  Ok (map snd (fold_right (fun kx acc => insert_sorted (fst kx) (snd kx) acc) [] keys)).

(** ** Files

    What a file holds is seen through [json.load]: text that does not decode,
    or the document it decodes to.  [json.dump] of a value of [pyval] writes
    text that decodes to the same value. *)

Inductive file :=
| Not_json
| Json (doc : pyval).

Definition json_load (f : file) : result pyval :=
  match f with
  | Json doc => Ok doc
  | Not_json => Raise JSONDecodeError
  end.

(** The rows of the problem tree: a chapter row has no parent, a problem
    row carries the identifier the program reads back from it. *)
Inductive tree_item :=
| Chapter_row
| Problem_row (prob : string).

(** The index of the last [c] in [s]. *)
Fixpoint rfind (c : ascii) (s : string) : option nat :=
  match s with
  | "" => None
  | String a s' =>
      match rfind c s' with
      | Some i => Some (S i)
      | None => if Ascii.eqb a c then Some 0%nat else None
      end
  end.

Fixpoint all_dots (s : string) : bool :=
  match s with
  | "" => true
  | String c s' => Ascii.eqb c "." && all_dots s'
  end.

(** [os.path.splitext(p)[1]] with [/] as separator: the text from the last
    dot of the last component, unless only dots come before it there. *)
Definition splitext_ext (p : string) : string :=
  let first := match rfind "/" p with Some i => S i | None => 0%nat end in
  match rfind "." p with
  | Some dot =>
      if (first <=? dot)%nat
      then if all_dots (substring first (dot - first) p) then ""
           else substring dot (String.length p - dot) p
      else ""
  | None => ""
  end.

(** [os.path.join(a, b)] with [/] as separator, for [a] not ending in
    one. *)
Definition path_join (a b : string) : string :=
  if startswith "/" b then b else a ++ "/" ++ b.

End Py.

(** ** Calendar dates

    [datetime.date]: a year, a month and a day of the proleptic Gregorian
    calendar; [toordinal] counts days from 0001-01-01, which is day 1, and the
    difference of two dates is the difference of their ordinals. *)

Module Date.
Import Py.

Record date := mkdate { year : Z; month : Z; day : Z }.

Definition is_leap (y : Z) : bool :=
  (y mod 4 =? 0) && (negb (y mod 100 =? 0) || (y mod 400 =? 0)).

Definition days_in_month (y m : Z) : Z :=
  if (m =? 2) then (if is_leap y then 29 else 28)
  else if (m =? 4) || (m =? 6) || (m =? 9) || (m =? 11) then 30
  else 31.

Definition MINYEAR : Z := 1.
Definition MAXYEAR : Z := 9999.

(** The check the constructor of [date] makes. *)
Definition valid (d : date) : bool :=
  (MINYEAR <=? year d) && (year d <=? MAXYEAR) &&
  (1 <=? month d) && (month d <=? 12) &&
  (1 <=? day d) && (day d <=? days_in_month (year d) (month d)).

Definition days_before_year (y : Z) : Z :=
  let y' := y - 1 in y' * 365 + y' / 4 - y' / 100 + y' / 400.

Definition DAYS_BEFORE_MONTH (m : Z) : Z :=
  match m with
  | 2 => 31 | 3 => 59 | 4 => 90 | 5 => 120 | 6 => 151 | 7 => 181
  | 8 => 212 | 9 => 243 | 10 => 273 | 11 => 304 | 12 => 334
  | _ => 0
  end.

Definition days_before_month (y m : Z) : Z :=
  DAYS_BEFORE_MONTH m + (if (2 <? m) && is_leap y then 1 else 0).

Definition toordinal (d : date) : Z :=
  days_before_year (year d) + days_before_month (year d) (month d) + day d.

(** [(a - b).days] *)
Definition sub_days (a b : date) : Z := toordinal a - toordinal b.

(** Dates compare as the triples (year, month, day). *)
Definition lt (a b : date) : bool :=
  (year a <? year b) ||
  (year a =? year b) &&
    ((month a <? month b) || (month a =? month b) && (day a <? day b)).

Definition eqb (a b : date) : bool :=
  (year a =? year b) && (month a =? month b) && (day a =? day b).

Definition le (a b : date) : bool := lt a b || eqb a b.
Definition gt (a b : date) : bool := lt b a.

Definition digit_char (k : Z) : ascii := ascii_of_nat (48 + Z.to_nat k).

(** [d.isoformat()]: ["%04d-%02d-%02d"]. *)
Definition isoformat (d : date) : string :=
  let y := year d in let m := month d in let dd := day d in
  String (digit_char (y / 1000 mod 10)) (String (digit_char (y / 100 mod 10))
  (String (digit_char (y / 10 mod 10)) (String (digit_char (y mod 10))
  (String "-" (String (digit_char (m / 10 mod 10)) (String (digit_char (m mod 10))
  (String "-" (String (digit_char (dd / 10 mod 10)) (String (digit_char (dd mod 10))
  ""))))))))).

(** [date.fromisoformat(s)] on text: exactly [YYYY-MM-DD], and the fields
    must make a date.  (This is the format of Python 3.7 to 3.10; later
    versions read a few more spellings of a date.) *)
Definition fromisoformat (s : string) : result date :=
  match s with
  | String y1 (String y2 (String y3 (String y4 (String "-"
      (String m1 (String m2 (String "-" (String d1 (String d2 ""))))))))) =>
      match digit_val y1, digit_val y2, digit_val y3, digit_val y4,
            digit_val m1, digit_val m2, digit_val d1, digit_val d2 with
      | Some a, Some b, Some c, Some e, Some f, Some g, Some h, Some i =>
          let d := mkdate (a * 1000 + b * 100 + c * 10 + e) (f * 10 + g) (h * 10 + i) in
          if valid d then Ok d else Raise ValueError
      | _, _, _, _, _, _, _, _ => Raise ValueError
      end
  | _ => Raise ValueError
  end.

(** [date.fromisoformat(v)] on any value: the argument must be text. *)
Definition fromisoformat_val (v : pyval) : result date :=
  match v with
  | PStr s => fromisoformat s
  | _ => Raise TypeError
  end.

End Date.

(** ** [progress_tracker.py]: several textbooks, one file *)

Module Tracker.
Import Py Date.

Record Textbook := mkTextbook {
  name : pyval;
  author : pyval;
  total_pages : pyval;
  current_page : pyval;
  problems_dict : pyval;
  start_date : date;
  end_date : date;
  completed_problems : dict pyval
}.

(** [Textbook.__init__]: the completion map always starts empty. *)
Definition Textbook_init (name author total_pages problems_dict : pyval)
    (start_date end_date : date) (current_page : pyval) : Textbook :=
  {| name := name; author := author; total_pages := total_pages;
     current_page := current_page; problems_dict := problems_dict;
     start_date := start_date; end_date := end_date;
     completed_problems := [] |}.

Definition to_dict (self : Textbook) : pyval :=
  PDict [ ("name", name self);
          ("author", author self);
          ("total_pages", total_pages self);
          ("current_page", current_page self);
          ("problems_dict", problems_dict self);
          ("start_date", PStr (isoformat (start_date self)));
          ("end_date", PStr (isoformat (end_date self)));
          ("completed_problems", PDict (completed_problems self)) ].

Definition from_dict (data : pyval) : result Textbook :=
  n <- getitem data "name" ;;
  a <- getitem data "author" ;;
  tp <- getitem data "total_pages" ;;
  pd <- getitem data "problems_dict" ;;
  sd <- (v <- getitem data "start_date" ;; fromisoformat_val v) ;;
  ed <- (v <- getitem data "end_date" ;; fromisoformat_val v) ;;
  cp <- getitem data "current_page" ;;
  Ok (Textbook_init n a tp pd sd ed cp).

(** The disk: what is stored under [textbooks_file], if the file exists,
    and whether the file can be opened for writing. *)
Record disk := mkdisk {
  textbooks_file : option file;
  writable : bool
}.

Definition load_textbooks (d : disk) : result (list Textbook) :=
  match textbooks_file d with
  | Some f =>
      data <- json_load f ;;
      tds <- iter data ;;
      mapM from_dict tds
  | None => Ok []
  end.

Definition save_textbooks (textbooks : list Textbook) (d : disk) : result disk :=
  if writable d
  then Ok {| textbooks_file := Some (Json (PList (map to_dict textbooks)));
             writable := true |}
  else Raise OSError.

(** *** [parse_problems] *)

Definition parse_state : Type := dict (list string) * option string.

(** One turn of the loop over the lines: [problems] and [current_chapter]
    before and after. *)
Definition parse_line (st : parse_state) (raw : string) : result parse_state :=
  let '(problems, current_chapter) := st in
  let line := strip raw in
  if startswith "chapter " (lower line) then
    ch <- list_getitem (split_ws line) 1 ;;
    Ok (dict_set ch [] problems, Some ch)
  else
    match current_chapter with
    | Some ch =>
        if negb (String.eqb ch "") && negb (String.eqb line "") then
          old <- dict_getitem ch problems ;;
          Ok (dict_set ch (old ++ map strip (split_on "," line))%list problems,
              current_chapter)
        else Ok st
    | None => Ok st
    end.

Fixpoint parse_lines (st : parse_state) (lines : list string) : result parse_state :=
  match lines with
  | [] => Ok st
  | raw :: rest => st' <- parse_line st raw ;; parse_lines st' rest
  end.

Definition parse_problems (text : string) : result (dict (list string)) :=
  st <- parse_lines ([], None) (split_on "010" (strip text)) ;;
  Ok (fst st).

(** The chapter map as the value stored in a record. *)
Definition problems_value (problems : dict (list string)) : pyval :=
  PDict (map (fun kv => (fst kv, PList (map PStr (snd kv)))) problems).

(** *** The application state

    [current_textbook] is a reference to one of the records of [textbooks],
    not a copy: it is kept as the index of that record. *)

Record app := mkapp {
  textbooks : list Textbook;
  current_textbook : option nat;
  storage : disk
}.

Definition selected (a : app) : option Textbook :=
  match current_textbook a with
  | Some i => nth_error (textbooks a) i
  | None => None
  end.

Fixpoint replace_nth {A} (i : nat) (x : A) (l : list A) : list A :=
  match l, i with
  | [], _ => []
  | _ :: l', O => x :: l'
  | y :: l', S i' => y :: replace_nth i' x l'
  end.

(** How a handler ends: it returns, or an exception leaves it. *)
Inductive outcome :=
| Returned
| Uncaught (e : exn).

(** *** [parse_and_add]: the Add button of the dialog *)

Record entries := mkentries {
  entry_name : string;
  entry_author : string;
  entry_pages : string;
  entry_start : string;
  entry_end : string;
  entry_problems : string
}.

Inductive add_outcome :=
| Added
| Error_shown (e : exn).

(** The part of the [try] block before the record list is touched. *)
Definition new_textbook (en : entries) : result Textbook :=
  start <- fromisoformat (entry_start en) ;;
  end_ <- fromisoformat (entry_end en) ;;
  if gt start end_ then Raise ValueError
  else
    problems <- parse_problems (entry_problems en) ;;
    pages <- int (entry_pages en) ;;
    sd <- fromisoformat (entry_start en) ;;
    ed <- fromisoformat (entry_end en) ;;
    Ok (Textbook_init (PStr (entry_name en)) (PStr (entry_author en))
          (PInt pages) (problems_value problems) sd ed (PInt 0)).

Definition parse_and_add (en : entries) (a : app) : app * add_outcome :=
  match new_textbook en with
  | Raise e => (a, Error_shown e)
  | Ok t =>
      let appended := (textbooks a ++ [t])%list in
      match save_textbooks appended (storage a) with
      | Ok d =>
          ({| textbooks := appended; current_textbook := current_textbook a;
              storage := d |}, Added)
      | Raise e =>
          ({| textbooks := appended; current_textbook := current_textbook a;
              storage := storage a |}, Error_shown e)
      end
  end.

(** *** [update_display]: the derived figures *)

Record display := mkdisplay {
  total_days : Z;
  days_elapsed : Z;
  days_left : Z;
  semester_progress : Q;
  textbook_progress : Q;
  required_pace : option Q
}.

Definition update_display (today : date) (t : Textbook) : result display :=
  let start := start_date t in
  let end_ := end_date t in
  let total_days := sub_days end_ start in
  let days_elapsed := if le start today then Z.max 0 (sub_days today start) else 0 in
  let days_left := if le today end_ then Z.max 0 (sub_days end_ today) else 0 in
  semester <-
    (if negb (total_days =? 0)
     then q <- truediv days_elapsed total_days ;; Ok (q * 100)%Q
     else Ok 0%Q) ;;
  textbook <-
    (if truthy (total_pages t)
     then cp <- as_number (current_page t) ;;
          tp <- as_number (total_pages t) ;;
          q <- truediv cp tp ;; Ok (q * 100)%Q
     else Ok 0%Q) ;;
  pace <-
    (if 0 <? days_left
     then tp <- as_number (total_pages t) ;;
          cp <- as_number (current_page t) ;;
          q <- truediv (tp - cp) days_left ;; Ok (Some q)
     else Ok None) ;;
  Ok {| total_days := total_days; days_elapsed := days_elapsed;
        days_left := days_left; semester_progress := semester;
        textbook_progress := textbook; required_pace := pace |}.

(** *** [mark_problem] *)

Definition mark_item (complete : bool) (completed : dict pyval) (item : tree_item)
    : dict pyval :=
  match item with
  | Chapter_row => completed
  | Problem_row prob =>
      if complete then dict_set prob (PDict [("complete", PBool true)]) completed
      else dict_del prob completed
  end.

Definition with_completed (t : Textbook) (completed : dict pyval) : Textbook :=
  {| name := name t; author := author t; total_pages := total_pages t;
     current_page := current_page t; problems_dict := problems_dict t;
     start_date := start_date t; end_date := end_date t;
     completed_problems := completed |}.

Definition with_page (t : Textbook) (page : pyval) : Textbook :=
  {| name := name t; author := author t; total_pages := total_pages t;
     current_page := page; problems_dict := problems_dict t;
     start_date := start_date t; end_date := end_date t;
     completed_problems := completed_problems t |}.

(** The record behind [current_textbook] is changed in place, then the
    whole list is saved. *)
Definition store_selected (a : app) (t : Textbook) : app * outcome :=
  match current_textbook a with
  | Some i =>
      let changed := replace_nth i t (textbooks a) in
      match save_textbooks changed (storage a) with
      | Ok d =>
          ({| textbooks := changed; current_textbook := Some i; storage := d |},
           Returned)
      | Raise e =>
          ({| textbooks := changed; current_textbook := Some i;
              storage := storage a |}, Uncaught e)
      end
  | None => (a, Returned)
  end.

Definition mark_problem (complete : bool) (selection : list tree_item) (a : app)
    : app * outcome :=
  match selected a with
  | None => (a, Returned)
  | Some t =>
      store_selected a
        (with_completed t
           (fold_left (mark_item complete) selection (completed_problems t)))
  end.

(** *** [update_page] *)

Definition update_page (page_entry : string) (a : app) : app * outcome :=
  match selected a with
  | None => (a, Returned)
  | Some t =>
      if isdigit page_entry then
        match int page_entry with
        | Raise ValueError => (a, Returned)
        | Raise e => (a, Uncaught e)
        | Ok new_page =>
            match (if 0 <=? new_page then int_le new_page (total_pages t)
                   else Ok false) with
            | Raise ValueError => (a, Returned)
            | Raise e => (a, Uncaught e)
            | Ok true => store_selected a (with_page t (PInt new_page))
            | Ok false => (a, Returned)
            end
        end
      else (a, Returned)
  end.

(** *** [update_tree]

    What goes into the tree: a row per chapter, in the order of the chapter
    keys read as integers, and under it a row per problem, with a tick when
    the problem has a completion entry. *)

Definition problem_row (completed : dict pyval) (prob : pyval)
    : result (pyval * bool) :=
  ticked <- in_dict prob completed ;; Ok (prob, ticked).

Definition chapter_rows (t : Textbook) (chap : pyval)
    : result (pyval * list (pyval * bool)) :=
  probs <- (v <- subscript (problems_dict t) chap ;; iter v) ;;
  rows <- mapM (problem_row (completed_problems t)) probs ;;
  Ok (chap, rows).

Definition update_tree (current : option Textbook)
    : result (list (pyval * list (pyval * bool))) :=
  match current with
  | None => Ok []
  | Some t =>
      keys <- iter (problems_dict t) ;;
      chaps <- sorted_by int_val keys ;;
      mapM (chapter_rows t) chaps
  end.

End Tracker.

(** ** [progress_tracker_QFT.py]: one textbook, fixed in the script *)

Module QFT.
Import Py Date.

Definition SEMESTER_START : date := mkdate 2025 1 13.
Definition SEMESTER_END : date := mkdate 2025 5 9.
Definition TOTAL_PAGES : Z := 258.
Definition INITIAL_PAGE : Z := 0.
Definition UPLOAD_DIR : string := "uploaded_documents".
Definition TOTAL_SEMESTER_DAYS : Z := sub_days SEMESTER_END SEMESTER_START.

(** The globals of the script and the two files it keeps. *)
Record state := mkstate {
  completed_problems : dict pyval;
  current_page : pyval;
  completed_file : option file;
  config_file : option file;
  writable : bool
}.

Definition legacy_entry : pyval :=
  PDict [("complete", PBool true); ("document", PNone)].

(** The comprehension over a legacy list.  A list or an object cannot be a
    key ([TypeError]); text becomes a key; a number, [true], [false] or
    [null] would become a key that is not text, which no problem identifier
    ever equals: the map of the model, keyed by text, leaves it out. *)
Fixpoint legacy_dict (data : list pyval) (acc : dict pyval) : result (dict pyval) :=
  match data with
  | [] => Ok acc
  | PStr prob :: rest => legacy_dict rest (dict_set prob legacy_entry acc)
  | PList _ :: _ | PDict _ :: _ => Raise TypeError
  | _ :: rest => legacy_dict rest acc
  end.

(** Every exception of the [try] block is caught and gives [{}]. *)
Definition load_completed_problems (f : option file) : dict pyval :=
  match f with
  | Some text =>
      match json_load text with
      | Ok (PList data) =>
          match legacy_dict data [] with
          | Ok d => d
          | Raise _ => []
          end
      | Ok (PDict data) => data
      | Ok _ => []
      | Raise _ => []
      end
  | None => []
  end.

(** A failed write is reported in a message box and changes nothing. *)
Definition save_completed_problems (data : dict pyval) (st : state) : state :=
  if writable st
  then {| completed_problems := completed_problems st;
          current_page := current_page st;
          completed_file := Some (Json (PDict data));
          config_file := config_file st; writable := true |}
  else st.

Definition save_config (config : pyval) (st : state) : state :=
  if writable st
  then {| completed_problems := completed_problems st;
          current_page := current_page st;
          completed_file := completed_file st;
          config_file := Some (Json config); writable := true |}
  else st.

Definition default_config : pyval := PDict [("current_page", PInt INITIAL_PAGE)].

Definition load_config (st : state) : pyval * state :=
  match config_file st with
  | Some text =>
      match (config <- json_load text ;;
             present <- contains "current_page" config ;;
             if present then Ok config
             else setitem config "current_page" (PInt INITIAL_PAGE)) with
      | Ok config => (config, st)
      | Raise _ => (default_config, st)
      end
  | None => (default_config, save_config default_config st)
  end.

(** *** [update_widget]: the derived figures *)

Inductive schedule := On_track | Behind | Ahead.

Record widget := mkwidget {
  days_elapsed : Z;
  days_left : Z;
  semester_percentage : Q;
  textbook_percentage : Q;
  expected_page : Q;
  page_diff : Q;
  pages_per_day : option Q;
  status : schedule
}.

Definition update_widget (today : date) (current_page : pyval) : result widget :=
  let '(days_elapsed, days_left) :=
    if lt today SEMESTER_START then (0, TOTAL_SEMESTER_DAYS)
    else if gt today SEMESTER_END then (TOTAL_SEMESTER_DAYS, 0)
    else (sub_days today SEMESTER_START, sub_days SEMESTER_END today) in
  fraction <- truediv days_elapsed TOTAL_SEMESTER_DAYS ;;
  page <- as_number current_page ;;
  read <- truediv page TOTAL_PAGES ;;
  let expected_page := (fraction * inject_Z TOTAL_PAGES)%Q in
  let page_diff := (inject_Z page - expected_page)%Q in
  pace <-
    (if 0 <? days_left
     then q <- truediv (TOTAL_PAGES - page) days_left ;; Ok (Some q)
     else Ok None) ;;
  Ok {| days_elapsed := days_elapsed; days_left := days_left;
        semester_percentage := (fraction * 100)%Q;
        textbook_percentage := (read * 100)%Q;
        expected_page := expected_page; page_diff := page_diff;
        pages_per_day := pace;
        status := if negb (Qle_bool 1 (Qabs page_diff)) then On_track
                  else if negb (Qle_bool 0 page_diff) then Behind
                  else Ahead |}.

(** *** [update_page] *)

Inductive page_outcome :=
| Page_updated
| Out_of_range_warning
| Not_a_number_warning
| Page_uncaught (e : exn).

Definition with_page (st : state) (page : pyval) : state :=
  {| completed_problems := completed_problems st; current_page := page;
     completed_file := completed_file st; config_file := config_file st;
     writable := writable st |}.

Definition update_page (page_entry : string) (st : state) : state * page_outcome :=
  match int page_entry with
  | Raise ValueError => (st, Not_a_number_warning)
  | Raise e => (st, Page_uncaught e)
  | Ok new_page =>
      if (0 <=? new_page) && (new_page <=? TOTAL_PAGES) then
        let '(config, st') := load_config (with_page st (PInt new_page)) in
        match setitem config "current_page" (PInt new_page) with
        | Ok config' => (save_config config' st', Page_updated)
        | Raise ValueError => (st', Not_a_number_warning)
        | Raise e => (st', Page_uncaught e)
        end
      else (st, Out_of_range_warning)
  end.

(** *** [mark_problem] *)

Inductive mark_outcome :=
| No_selection
| Marked
| Mark_uncaught (e : exn).

(** One turn of the loop over the selected rows: the map and
    [changes_made], before and after. *)
Definition mark_item (mark_complete : bool) (acc : dict pyval * bool)
    (item : tree_item) : result (dict pyval * bool) :=
  let '(completed, changes_made) := acc in
  match item with
  | Chapter_row => Ok acc
  | Problem_row prob_text =>
      if mark_complete then
        let current_data :=
          match dict_get prob_text completed with
          | Some v => v
          | None => PDict []
          end in
        current_data <- setitem current_data "complete" (PBool true) ;;
        absent <- (b <- contains "document" current_data ;; Ok (negb b)) ;;
        current_data <-
          (if absent then setitem current_data "document" PNone
           else Ok current_data) ;;
        Ok (dict_set prob_text current_data completed, true)
      else if dict_contains prob_text completed
           then Ok (dict_del prob_text completed, true)
           else Ok acc
  end.

(** The loop; an exception leaves it with what the earlier turns did. *)
Fixpoint mark_items (mark_complete : bool) (acc : dict pyval * bool)
    (items : list tree_item) : (dict pyval * bool) * option exn :=
  match items with
  | [] => (acc, None)
  | item :: rest =>
      match mark_item mark_complete acc item with
      | Ok acc' => mark_items mark_complete acc' rest
      | Raise e => (acc, Some e)
      end
  end.

Definition with_completed (st : state) (completed : dict pyval) : state :=
  {| completed_problems := completed; current_page := current_page st;
     completed_file := completed_file st; config_file := config_file st;
     writable := writable st |}.

Definition mark_problem (mark_complete : bool) (selected : list tree_item)
    (st : state) : state * mark_outcome :=
  match selected with
  | [] => (st, No_selection)
  | _ =>
      match mark_items mark_complete (completed_problems st, false) selected with
      | ((completed, _), Some e) => (with_completed st completed, Mark_uncaught e)
      | ((completed, true), None) =>
          (save_completed_problems completed (with_completed st completed), Marked)
      | ((completed, false), None) => (with_completed st completed, Marked)
      end
  end.

(** *** [upload_document] *)

Inductive upload_outcome :=
| Upload_no_selection
| Selection_error
| Not_complete
| Cancelled
| Upload_successful
| Upload_error
| Upload_uncaught (e : exn).

(** [prob not in completed_problems or
     not completed_problems[prob].get("complete")] *)
Definition not_complete (prob : string) (completed : dict pyval) : result bool :=
  match dict_get prob completed with
  | None => Ok true
  | Some entry => c <- get entry "complete" ;; Ok (negb (truthy c))
  end.

(** [file_path] is what the file dialog returned (empty when the user
    cancelled) and [copied] tells whether [shutil.copy] succeeded. *)
Definition upload_document (selected : list tree_item) (file_path : string)
    (copied : bool) (st : state) : state * upload_outcome :=
  match selected with
  | [] => (st, Upload_no_selection)
  | Chapter_row :: _ => (st, Selection_error)
  | Problem_row prob :: _ =>
      match not_complete prob (completed_problems st) with
      | Raise e => (st, Upload_uncaught e)
      | Ok true => (st, Not_complete)
      | Ok false =>
          if String.eqb file_path "" then (st, Cancelled)
          else
            let ext := splitext_ext file_path in
            let destination := path_join UPLOAD_DIR (prob ++ ext) in
            if copied then
              match (entry <- dict_getitem prob (completed_problems st) ;;
                     setitem entry "document" (PStr destination)) with
              | Ok entry' =>
                  let completed := dict_set prob entry' (completed_problems st) in
                  (save_completed_problems completed (with_completed st completed),
                   Upload_successful)
              | Raise _ => (st, Upload_error)
              end
            else (st, Upload_error)
      end
  end.

(** *** [update_treeview] *)

Definition all_problems_dict : dict (list string) :=
  [ ("2", ["2.1a"; "2.1b"; "2.2a"; "2.2b"; "2.2c"; "2.2d"; "2.3"]);
    ("3", ["3.1a"; "3.1b"; "3.1c"; "3.2"; "3.3a"; "3.3b"; "3.3c"; "3.4a";
           "3.4b"; "3.4c"; "3.4d"; "3.4e"; "3.5a"; "3.5b"; "3.5c"; "3.6a";
           "3.6b"; "3.6c"; "3.7a"; "3.7b"; "3.7c"; "3.8a"; "3.8b"]);
    ("4", ["4.1a"; "4.1b"; "4.1c"; "4.1d"; "4.1e"; "4.1f"; "4.2"; "4.3a";
           "4.3b"; "4.3c"; "4.3d"; "4.4a"; "4.4b"; "4.4c"]);
    ("5", ["5.1"; "5.2"; "5.3a"; "5.3b"; "5.3c"; "5.3d"; "5.3e"; "5.4a";
           "5.4b"; "5.4c"; "5.4d"; "5.5a"; "5.5b"; "5.5c"; "5.6a"; "5.6b"]);
    ("6", ["6.1"; "6.2a"; "6.2b"; "6.2c"; "6.2d"; "6.2e"; "6.3a"; "6.3b";
           "6.3c"; "6.10"]);
    ("7", ["7.1"; "7.2a"; "7.2b"; "7.3a"; "7.3b"]) ].

(** The check mark U+2713, as its three bytes. *)
Definition tick : string := String "226" (String "156" (String "147" "")).

(** The text of a problem row. *)
Definition display_text (completed : dict pyval) (prob : string) : result string :=
  match dict_get prob completed with
  | Some entry =>
      c <- get entry "complete" ;;
      if truthy c then
        d <- get entry "document" ;;
        Ok (prob ++ "  " ++ tick ++ (if truthy d then " (doc)" else ""))
      else Ok prob
  | None => Ok prob
  end.

(** A problem row holds its text and, as its value, the identifier. *)
Definition treeview_chapter (completed : dict pyval) (chapter : string)
    : result (string * list (string * string)) :=
  probs <- dict_getitem chapter all_problems_dict ;;
  rows <- mapM (fun prob => text <- display_text completed prob ;; Ok (text, prob))
            probs ;;
  Ok (chapter, rows).

Definition update_treeview (completed : dict pyval)
    : result (list (string * list (string * string))) :=
  chapters <- sorted_by int (map fst all_problems_dict) ;;
  mapM (treeview_chapter completed) chapters.

End QFT.

(** ** The grammar of the chapter text, as the specification words it

    Lines are trimmed.  A chapter line starts a chapter; the problems of a
    chapter are the trimmed comma-separated pieces of the non-empty lines
    that follow it, up to the next chapter line; lines before the first
    chapter line belong to no chapter.  The result maps each key to the
    problems of the chapter that key names, chapters taken in order. *)

Module Spec.
Import Py.

(** "a line beginning with the case-insensitive token chapter followed by
    whitespace and a token": the first two tokens of the line. *)
Definition chapter_key_whitespace (line : string) : option string :=
  match split_ws line with
  | word :: key :: _ => if String.eqb (lower word) "chapter" then Some key else None
  | _ => None
  end.

(** The same with one space after the word in place of any whitespace. *)
Definition chapter_key_space (line : string) : option string :=
  if startswith "chapter " (lower line) then nth_error (split_ws line) 1 else None.

Definition pieces (line : string) : list string :=
  if String.eqb line "" then [] else map strip (split_on "," line).

Section Grammar.

Variable chapter_key : string -> option string.

(** The problems on the lines up to the next chapter line. *)
Fixpoint body (lines : list string) : list string :=
  match lines with
  | [] => []
  | line :: rest =>
      match chapter_key line with
      | Some _ => []
      | None => pieces line ++ body rest
      end
  end.

(** The chapters of the text, in the order of their chapter lines. *)
Fixpoint chapters (lines : list string) : list (string * list string) :=
  match lines with
  | [] => []
  | line :: rest =>
      match chapter_key line with
      | Some key => (key, body rest) :: chapters rest
      | None => chapters rest
      end
  end.

Definition collect (cs : list (string * list string)) (d : dict (list string))
    : dict (list string) :=
  fold_left (fun acc kv => dict_set (fst kv) (snd kv) acc) cs d.

Definition parse (text : string) : dict (list string) :=
  collect (chapters (map strip (split_on "010" (strip text)))) [].

End Grammar.

End Spec.

Import Py Date.
Open Scope list_scope.

(** ** Notions used in the statements *)

(** The whole text is whitespace. *)
Fixpoint all_space (s : string) : bool :=
  match s with
  | "" => true
  | String c s' => is_space c && all_space s'
  end.

(** No suffix of [s] is blank: [s] does not end in whitespace. *)
Fixpoint tails_ok (s : string) : bool :=
  match s with
  | "" => true
  | String c s' => negb (all_space s) && tails_ok s'
  end.

(** What survives a save and a load: everything but the completion map. *)
Definition reloaded (t : Tracker.Textbook) : Tracker.Textbook :=
  Tracker.with_completed t [].

(** The page text is an integer between 0 and [total]. *)
Definition page_in_range (page_entry : string) (total : Z) : bool :=
  match int page_entry with
  | Ok n => (0 <=? n) && (n <=? total)
  | Raise _ => false
  end.

(** The problem has a completion entry that is marked complete. *)
Definition marked_complete (prob : string) (completed : dict pyval) : bool :=
  match dict_get prob completed with
  | Some (PDict entry) =>
      match dict_get "complete" entry with
      | Some c => truthy c
      | None => false
      end
  | _ => false
  end.

(** The entry of the problem, if there is one, is a completion record. *)
Definition entry_is_record (prob : string) (completed : dict pyval) : bool :=
  match dict_get prob completed with
  | Some (PDict _) | None => true
  | Some _ => false
  end.

(** What the Add dialog checks: both dates must read as dates, the start
    must not be after the end, and the page count must read as an integer. *)
Definition fails_validation (en : Tracker.entries) : Prop :=
  (exists e, fromisoformat (Tracker.entry_start en) = Raise e) \/
  (exists e, fromisoformat (Tracker.entry_end en) = Raise e) \/
  (exists s e, fromisoformat (Tracker.entry_start en) = Ok s /\
               fromisoformat (Tracker.entry_end en) = Ok e /\ gt s e = true) \/
  (exists e, int (Tracker.entry_pages en) = Raise e).

(** The record's current page is an integer between 0 and its total. *)
Definition page_within (t : Tracker.Textbook) : Prop :=
  exists n total, Tracker.current_page t = PInt n /\
                  Tracker.total_pages t = PInt total /\ 0 <= n <= total.

(** The completion file holds what the script has in memory. *)
Definition in_sync (st : QFT.state) : Prop :=
  QFT.load_completed_problems (QFT.completed_file st) = QFT.completed_problems st.

(** The dates of a record are dates of the calendar. *)
Definition dated (t : Tracker.Textbook) : Prop :=
  valid (Tracker.start_date t) = true /\ valid (Tracker.end_date t) = true.

(** No character of the text is whitespace. *)
Fixpoint no_space (s : string) : bool :=
  match s with
  | "" => true
  | String c s' => negb (is_space c) && no_space s'
  end.

(** The selection holds the row of problem [p]. *)
Definition selects (p : string) (selection : list tree_item) : bool :=
  existsb (fun item => match item with
                       | Problem_row q => String.eqb q p
                       | Chapter_row => false
                       end) selection.

(** Both texts read as integers, the first not above the second. *)
Definition numeric_le (x y : string) : Prop :=
  exists a b, int x = Ok a /\ int y = Ok b /\ a <= b.

(** The rows [update_tree] shows for chapters [ks] of a parsed chapter map:
    each problem with a tick when it has a completion entry. *)
Definition shown_rows (problems : dict (list string)) (completed : dict pyval)
    (ks : list string) : list (pyval * list (pyval * bool)) :=
  map (fun k =>
         (PStr k,
          match dict_get k problems with
          | Some ps => map (fun p => (PStr p, dict_contains p completed)) ps
          | None => []
          end)) ks.

(** Insertion sort of keyed elements, as [sorted_by] runs it. *)
Definition sort_pairs {A} (l : list (Z * A)) : list (Z * A) :=
  fold_right (fun kx acc => insert_sorted (fst kx) (snd kx) acc) [] l.

(** The problem is one of those of the built-in table. *)
Definition listed (prob : string) : Prop :=
  exists chapter probs,
    dict_get chapter QFT.all_problems_dict = Some probs /\ In prob probs.

(** * Properties *)

(** ** Tactics *)

Ltac split_bools :=
  repeat match goal with
         | H : _ && _ = true |- _ => apply andb_true_iff in H; destruct H
         | H : (_ <=? _) = true |- _ => apply Z.leb_le in H
         | H : (_ <? _) = true |- _ => apply Z.ltb_lt in H
         | H : (_ =? _) = true |- _ => apply Z.eqb_eq in H
         end.

Ltac month_cases m :=
  let H := fresh in
  assert (H : m = 1 \/ m = 2 \/ m = 3 \/ m = 4 \/ m = 5 \/ m = 6 \/ m = 7 \/
              m = 8 \/ m = 9 \/ m = 10 \/ m = 11 \/ m = 12) by lia;
  repeat (destruct H as [H|H]); subst m.

(** An operand that is not a number raises [TypeError], never a division
    error. *)
Lemma as_number_raises (v : pyval) (e : exn) :
  as_number v = Raise e -> e = TypeError.
Proof. destruct v; cbn; congruence. Qed.

Ltac number v :=
  let E := fresh "E" in
  destruct (as_number v) eqn:E; cbn [bind];
  [|apply as_number_raises in E; subst; discriminate].

(** ** Text *)

Lemma is_space_lower_char (c : ascii) : is_space (lower_char c) = is_space c.
Proof. destruct c as [[] [] [] [] [] [] [] []]; reflexivity. Qed.

Lemma lower_char_inv (c x : ascii) :
  Ascii.eqb x (lower_char c) = true -> is_space c = is_space x.
Proof.
  intros H. apply Ascii.eqb_eq in H. subst x. symmetry. apply is_space_lower_char.
Qed.

Lemma rstrip_tails_ok (s : string) : tails_ok (rstrip s) = true.
Proof.
  induction s as [|c s IH]; simpl; [reflexivity|].
  destruct (rstrip s) as [|c' r] eqn:E.
  - destruct (is_space c) eqn:Ec; simpl; [reflexivity|].
    rewrite Ec. reflexivity.
  - change (negb (all_space (String c (String c' r))) && tails_ok (String c' r) = true).
    rewrite IH. change (tails_ok (String c' r)) with
      (negb (all_space (String c' r)) && tails_ok r) in IH.
    apply andb_true_iff in IH. destruct IH as [IH _].
    apply negb_true_iff in IH.
    change (all_space (String c (String c' r))) with
      (is_space c && all_space (String c' r)).
    rewrite IH, andb_false_r. reflexivity.
Qed.

Lemma lstrip_tails_ok (s : string) : tails_ok s = true -> tails_ok (lstrip s) = true.
Proof.
  induction s as [|c s IH]; intros H; [reflexivity|].
  simpl lstrip. destruct (is_space c); [|exact H].
  apply IH. simpl in H. apply andb_true_iff in H. apply H.
Qed.

Lemma strip_tails_ok (s : string) : tails_ok (strip s) = true.
Proof. apply lstrip_tails_ok, rstrip_tails_ok. Qed.

Lemma split_ws_tokens (s t : string) : In t (split_ws s) -> t <> "".
Proof.
  revert t. induction s as [|c s IH]; intros t H; simpl in H; [contradiction|].
  destruct (is_space c); [now apply IH|].
  destruct s as [|c' s']; [destruct H as [<-|[]]; discriminate|].
  destruct (is_space c').
  - destruct H as [<-|H]; [discriminate | now apply IH].
  - destruct (split_ws (String c' s')) as [|u us].
    + destruct H as [<-|[]]; discriminate.
    + destruct H as [<-|H]; [discriminate|]. apply IH. now right.
Qed.

Lemma split_ws_space (c : ascii) (s : string) :
  is_space c = true -> split_ws (String c s) = split_ws s.
Proof. intros H. simpl. now rewrite H. Qed.

Lemma split_ws_blank (s : string) : all_space s = false -> split_ws s <> [].
Proof.
  induction s as [|c s IH]; intros H; [discriminate|].
  simpl in H. simpl. destruct (is_space c) eqn:Ec.
  - now apply IH.
  - destruct s as [|c' s']; [discriminate|].
    destruct (is_space c'); [discriminate|].
    destruct (split_ws (String c' s')); discriminate.
Qed.

(** A word glued to the front of a text joins its first token. *)
Lemma split_ws_glue (c c' : ascii) (s : string) :
  is_space c = false -> is_space c' = false ->
  exists t ts, split_ws (String c' s) = t :: ts /\
               split_ws (String c (String c' s)) = String c t :: ts.
Proof.
  intros Hc Hc'.
  assert (Hne : split_ws (String c' s) <> []).
  { apply split_ws_blank. simpl. now rewrite Hc'. }
  destruct (split_ws (String c' s)) as [|t ts] eqn:E; [contradiction|].
  exists t, ts. split; [reflexivity|].
  change (split_ws (String c (String c' s))) with
    (if is_space c then split_ws (String c' s)
     else if is_space c' then String c "" :: split_ws (String c' s)
          else match split_ws (String c' s) with
               | t :: ts => String c t :: ts
               | [] => [String c ""]
               end).
  now rewrite Hc, Hc', E.
Qed.

(** A trimmed line that starts with the word and a space has a second
    token: [line.split()[1]] cannot fail. *)
Lemma chapter_line_key (raw : string) :
  startswith "chapter " (lower (strip raw)) = true ->
  exists key, nth_error (split_ws (strip raw)) 1 = Some key /\ key <> "".
Proof.
  intros H. pose proof (strip_tails_ok raw) as T.
  destruct (strip raw) as [|c1 [|c2 [|c3 [|c4 [|c5 [|c6 [|c7 [|c8 rest]]]]]]]];
    try (cbn in H; rewrite ?andb_false_r in H; discriminate H).
  cbn [lower startswith] in H.
  repeat (apply andb_true_iff in H; destruct H as [?H H]).
  repeat match goal with
         | X : Ascii.eqb _ (lower_char _) = true |- _ =>
             apply lower_char_inv in X;
             match type of X with
             | _ = ?r => let v := eval vm_compute in r in change r with v in X
             end
         end.
  assert (R : all_space rest = false).
  { cbn [tails_ok] in T.
    do 7 (apply andb_true_iff in T; destruct T as [_ T]).
    apply andb_true_iff in T. destruct T as [T _].
    apply negb_true_iff in T. cbn [all_space] in T.
    now rewrite H7 in T. }
  assert (S7 : split_ws (String c7 (String c8 rest)) = String c7 "" :: split_ws rest).
  { change (split_ws (String c7 (String c8 rest))) with
      (if is_space c7 then split_ws (String c8 rest)
       else if is_space c8 then String c7 "" :: split_ws (String c8 rest)
            else match split_ws (String c8 rest) with
                 | t :: ts => String c7 t :: ts
                 | [] => [String c7 ""]
                 end).
    rewrite H6, H7. now rewrite split_ws_space. }
  destruct (split_ws_glue c6 c7 (String c8 rest) H5 H6) as (t6 & ts6 & E6 & G6).
  destruct (split_ws_glue c5 c6 (String c7 (String c8 rest)) H4 H5)
    as (t5 & ts5 & E5 & G5).
  destruct (split_ws_glue c4 c5 (String c6 (String c7 (String c8 rest))) H3 H4)
    as (t4 & ts4 & E4 & G4).
  destruct (split_ws_glue c3 c4
              (String c5 (String c6 (String c7 (String c8 rest)))) H2 H3)
    as (t3 & ts3 & E3 & G3).
  destruct (split_ws_glue c2 c3
              (String c4 (String c5 (String c6 (String c7 (String c8 rest))))) H1 H2)
    as (t2 & ts2 & E2 & G2).
  destruct (split_ws_glue c1 c2
              (String c3 (String c4 (String c5 (String c6 (String c7
                 (String c8 rest)))))) H0 H1)
    as (t1 & ts1 & E1 & G1).
  rewrite G1.
  rewrite G2 in E1. injection E1 as <- <-.
  rewrite G3 in E2. injection E2 as <- <-.
  rewrite G4 in E3. injection E3 as <- <-.
  rewrite G5 in E4. injection E4 as <- <-.
  rewrite G6 in E5. injection E5 as <- <-.
  rewrite S7 in E6. injection E6 as <- <-.
  pose proof (split_ws_blank rest R) as Hne.
  destruct (split_ws rest) as [|key more] eqn:Er; [contradiction|].
  exists key. split; [reflexivity|].
  apply (split_ws_tokens rest). rewrite Er. now left.
Qed.

(** ** Dictionaries *)

Section Dict.

Context {V : Type}.
Implicit Types (d : dict V) (k : string) (v : V).

Lemma dict_get_set_same d k v : dict_get k (dict_set k v d) = Some v.
Proof.
  induction d as [|[k' v'] d IH]; simpl.
  - now rewrite String.eqb_refl.
  - destruct (String.eqb k k') eqn:E; simpl; now rewrite E.
Qed.

Lemma dict_get_set_other d k k' v :
  k <> k' -> dict_get k (dict_set k' v d) = dict_get k d.
Proof.
  intros N. induction d as [|[k0 v0] d IH]; simpl.
  - apply String.eqb_neq in N. now rewrite N.
  - destruct (String.eqb k' k0) eqn:E; simpl; [|now rewrite IH].
    apply String.eqb_eq in E. subst k0.
    apply String.eqb_neq in N. now rewrite N.
Qed.

Lemma dict_set_set d k v v' : dict_set k v (dict_set k v' d) = dict_set k v d.
Proof.
  induction d as [|[k0 v0] d IH]; simpl.
  - now rewrite String.eqb_refl.
  - destruct (String.eqb k k0) eqn:E; simpl; rewrite E; [reflexivity|].
    now rewrite IH.
Qed.

Lemma dict_set_get d k v : dict_get k d = Some v -> dict_set k v d = d.
Proof.
  induction d as [|[k0 v0] d IH]; simpl; [discriminate|].
  destruct (String.eqb k k0) eqn:E; intros H.
  - now injection H as ->.
  - now rewrite IH.
Qed.

Lemma dict_get_del_same d k : dict_get k (dict_del k d) = None.
Proof.
  induction d as [|[k0 v0] d IH]; simpl; [reflexivity|].
  destruct (String.eqb k k0) eqn:E; simpl; [exact IH|]. now rewrite E.
Qed.

Lemma dict_contains_false d k : dict_contains k d = false -> dict_get k d = None.
Proof. unfold dict_contains. now destruct (dict_get k d). Qed.

End Dict.

(** ** [parse_problems] against the grammar *)

Section Parser.

Import Tracker.

Lemma parse_line_chapter (raw k : string) (problems : dict (list string))
    (cur : option string) :
  Spec.chapter_key_space (strip raw) = Some k ->
  parse_line (problems, cur) raw = Ok (dict_set k [] problems, Some k) /\ k <> "".
Proof.
  unfold Spec.chapter_key_space, parse_line. intros H.
  destruct (startswith "chapter " (lower (strip raw))) eqn:E; [|discriminate].
  destruct (chapter_line_key raw E) as (k' & Hk & Hne).
  rewrite Hk in H. injection H as ->.
  unfold list_getitem. rewrite Hk. simpl. now split.
Qed.

Lemma not_chapter_line (raw : string) :
  Spec.chapter_key_space (strip raw) = None -> startswith "chapter " (lower (strip raw)) = false.
Proof.
  unfold Spec.chapter_key_space. intros H.
  destruct (startswith "chapter " (lower (strip raw))) eqn:E; [|reflexivity].
  destruct (chapter_line_key raw E) as (k' & Hk & _). congruence.
Qed.

Lemma parse_line_problems (raw ch : string) (problems : dict (list string))
    (acc : list string) :
  Spec.chapter_key_space (strip raw) = None -> ch <> "" -> dict_get ch problems = Some acc ->
  parse_line (problems, Some ch) raw =
  Ok (dict_set ch (acc ++ Spec.pieces (strip raw)) problems, Some ch).
Proof.
  intros H Hne Hget. unfold parse_line. rewrite (not_chapter_line raw H).
  apply String.eqb_neq in Hne. rewrite Hne. unfold Spec.pieces.
  destruct (String.eqb (strip raw) "") eqn:E; simpl.
  - rewrite app_nil_r. now rewrite (dict_set_get _ _ _ Hget).
  - unfold dict_getitem. rewrite Hget. reflexivity.
Qed.

Lemma parse_line_ignored (raw : string) (problems : dict (list string)) :
  Spec.chapter_key_space (strip raw) = None ->
  parse_line (problems, None) raw = Ok (problems, None).
Proof.
  intros H. unfold parse_line. now rewrite (not_chapter_line raw H).
Qed.

(** Inside a chapter: the rest of the lines first completes the current
    chapter, then adds the chapters that follow. *)
Lemma parse_lines_in_chapter (lines : list string) :
  forall (problems : dict (list string)) (ch : string) (acc : list string),
    ch <> "" -> dict_get ch problems = Some acc ->
    exists cur,
      parse_lines (problems, Some ch) lines =
      Ok (Spec.collect (Spec.chapters Spec.chapter_key_space (map strip lines))
            (dict_set ch (acc ++ Spec.body Spec.chapter_key_space (map strip lines)) problems),
          cur).
Proof.
  induction lines as [|raw rest IH]; intros problems ch acc Hne Hget.
  - exists (Some ch). simpl. rewrite app_nil_r.
    now rewrite (dict_set_get _ _ _ Hget).
  - cbn [parse_lines map Spec.chapters Spec.body].
    destruct (Spec.chapter_key_space (strip raw)) as [k|] eqn:E.
    + destruct (parse_line_chapter raw k problems (Some ch) E) as [-> Hk].
      cbn [bind].
      destruct (IH (dict_set k [] problems) k [] Hk (dict_get_set_same _ _ _))
        as [cur ->].
      exists cur. unfold Spec.collect. cbn [fold_left fst snd List.app].
      rewrite dict_set_set, app_nil_r.
      now rewrite (dict_set_get _ _ _ Hget).
    + rewrite (parse_line_problems raw ch problems acc E Hne Hget). cbn [bind].
      destruct (IH (dict_set ch (acc ++ Spec.pieces (strip raw)) problems) ch
                  (acc ++ Spec.pieces (strip raw)) Hne (dict_get_set_same _ _ _))
        as [cur ->].
      exists cur. now rewrite dict_set_set, app_assoc.
Qed.

(** Before the first chapter line nothing is recorded. *)
Lemma parse_lines_before (lines : list string) (problems : dict (list string)) :
  exists cur,
    parse_lines (problems, None) lines =
    Ok (Spec.collect (Spec.chapters Spec.chapter_key_space (map strip lines)) problems, cur).
Proof.
  induction lines as [|raw rest IH].
  - now exists None.
  - cbn [parse_lines map Spec.chapters].
    destruct (Spec.chapter_key_space (strip raw)) as [k|] eqn:E.
    + destruct (parse_line_chapter raw k problems None E) as [-> Hk]. cbn [bind].
      destruct (parse_lines_in_chapter rest (dict_set k [] problems) k [] Hk
                  (dict_get_set_same _ _ _)) as [cur ->].
      exists cur. unfold Spec.collect. cbn [fold_left fst snd List.app].
      now rewrite dict_set_set.
    + rewrite (parse_line_ignored raw problems E). cbn [bind]. exact IH.
Qed.

(** [parse_problems] never raises and computes the grammar's map. *)
Lemma parse_problems_grammar (text : string) :
  parse_problems text = Ok (Spec.parse Spec.chapter_key_space text).
Proof.
  destruct (parse_lines_before (split_on "010" (strip text)) []) as [cur H].
  unfold parse_problems, Spec.parse, bind. unfold dict in *. now rewrite H.
Qed.

End Parser.

(** ** The grammar's map, key by key *)

Section Chapters.

Variable key : string -> option string.

Lemma chapters_app (l1 l2 : list string) :
  exists cs, Spec.chapters key (l1 ++ l2) = cs ++ Spec.chapters key l2.
Proof.
  induction l1 as [|l l1 [cs IH]]; [now exists []|].
  cbn [List.app Spec.chapters]. destruct (key l) as [k|].
  - exists ((k, Spec.body key (l1 ++ l2)) :: cs). now rewrite IH.
  - now exists cs.
Qed.

Lemma chapters_keys (lines : list string) (k : string) (b : list string) :
  In (k, b) (Spec.chapters key lines) -> exists l, In l lines /\ key l = Some k.
Proof.
  induction lines as [|l lines IH]; cbn [Spec.chapters]; [intros []|].
  destruct (key l) as [k'|] eqn:E.
  - intros [H|H].
    + injection H as -> _. exists l. split; [now left | exact E].
    + destruct (IH H) as (l' & Hin & Hk). exists l'. split; [now right | exact Hk].
  - intros H. destruct (IH H) as (l' & Hin & Hk). exists l'.
    split; [now right | exact Hk].
Qed.

Lemma collect_app (cs1 cs2 : list (string * list string)) (d : dict (list string)) :
  Spec.collect (cs1 ++ cs2) d = Spec.collect cs2 (Spec.collect cs1 d).
Proof. unfold Spec.collect. apply fold_left_app. Qed.

Lemma collect_other (cs : list (string * list string)) (k : string) :
  (forall kv, In kv cs -> fst kv <> k) ->
  forall d, dict_get k (Spec.collect cs d) = dict_get k d.
Proof.
  unfold Spec.collect.
  induction cs as [|[k' b] cs IH]; intros H d; [reflexivity|].
  cbn [fold_left fst snd]. rewrite IH.
  - apply dict_get_set_other. intros ->. now apply (H (k', b)); [left|].
  - intros kv Hin. apply H. now right.
Qed.

End Chapters.

(** C7 (as amended): the parser trims each line, starts a new chapter,
    keyed by the second token, at each line that begins with the word
    "chapter" in any letter case followed by a space, appends the trimmed
    comma-separated pieces of every later non-empty line to the current
    chapter in order, and ignores the lines before the first chapter line:
    on every text it returns the map of the grammar [Spec.parse], and it
    never raises.  On the text of the scenario it returns
    [{"1": ["1.1", "1.2a"], "2": ["2.1"]}]. *)
Theorem parse_problems_follows_grammar :
  (forall text : string,
     Tracker.parse_problems text = Ok (Spec.parse Spec.chapter_key_space text)) /\
  Tracker.parse_problems
    ("Chapter 1" ++ nl ++ "1.1, 1.2a" ++ nl ++ "Chapter 2" ++ nl ++ "2.1")%string
  = Ok [("1", ["1.1"; "1.2a"]); ("2", ["2.1"])].
Proof.
  split; [exact parse_problems_grammar | reflexivity].
Qed.

(** C7 as stated fails: with a TAB between the word and the key the line
    begins with the token "chapter" followed by whitespace, yet the parser
    takes it for a line of problems of chapter 1. *)
Lemma chapter_then_tab_is_not_a_chapter_line :
  let text := ("Chapter 1" ++ nl ++ "chapter" ++ tab ++ "2" ++ nl ++ "2.1")%string in
  Tracker.parse_problems text = Ok [("1", [("chapter" ++ tab ++ "2")%string; "2.1"])] /\
  Spec.parse Spec.chapter_key_whitespace text = [("1", []); ("2", ["2.1"])] /\
  Tracker.parse_problems text <> Ok (Spec.parse Spec.chapter_key_whitespace text).
Proof.
  cbv zeta. split; [reflexivity|]. split; [reflexivity|].
  vm_compute. discriminate.
Qed.

(** C10: when a chapter line names key [k] and no later line names [k]
    again, whatever came before it (earlier chapter lines for [k] and their
    problems included) leaves no trace under [k]: right after that line the
    sequence of [k] is empty, and in the result [k] holds exactly the
    problems of the lines after it, up to the next chapter line. *)
Theorem repeated_chapter_keeps_last_occurrence
    (text : string) (before after : list string) (line k : string)
    (Hlines : split_on "010" (strip text) = before ++ line :: after)
    (Hline : Spec.chapter_key_space (strip line) = Some k)
    (Hlast : forall l, In l after -> Spec.chapter_key_space (strip l) <> Some k) :
  (exists st, Tracker.parse_lines ([], None) (before ++ [line]) = Ok st /\
              dict_get k (fst st) = Some []) /\
  (exists problems, Tracker.parse_problems text = Ok problems /\
     dict_get k problems =
     Some (Spec.body Spec.chapter_key_space (map strip after))).
Proof.
  split.
  - destruct (parse_lines_before (before ++ [line]) []) as [cur H].
    eexists. split; [exact H|]. cbn [fst].
    rewrite map_app. cbn [map].
    destruct (chapters_app Spec.chapter_key_space (map strip before) [strip line])
      as [cs ->].
    cbn [Spec.chapters Spec.body]. rewrite Hline.
    rewrite collect_app. unfold Spec.collect at 1. cbn [fold_left fst snd].
    apply dict_get_set_same.
  - rewrite parse_problems_grammar. eexists. split; [reflexivity|].
    unfold Spec.parse. rewrite Hlines, map_app. cbn [map].
    destruct (chapters_app Spec.chapter_key_space (map strip before)
                (strip line :: map strip after)) as [cs ->].
    cbn [Spec.chapters]. rewrite Hline.
    rewrite collect_app.
    change (Spec.collect ((k, ?b) :: ?r) ?d)
      with (Spec.collect r (dict_set k b d)).
    rewrite collect_other; [apply dict_get_set_same|].
    intros [k' b] Hin Hk. cbn [fst] in Hk. subst k'.
    destruct (chapters_keys _ _ _ _ Hin) as (l & Hl & Hkey).
    apply in_map_iff in Hl. destruct Hl as (raw & <- & Hraw).
    exact (Hlast raw Hraw Hkey).
Qed.

Lemma repeated_chapter_keeps_last_occurrence_witness :
  let text :=
    ("Chapter 1" ++ nl ++ "1.1, 1.2" ++ nl ++ "Chapter 1" ++ nl ++ "1.3")%string in
  (exists st,
     Tracker.parse_lines ([], None) (["Chapter 1"; "1.1, 1.2"] ++ ["Chapter 1"])
     = Ok st /\ dict_get "1" (fst st) = Some []) /\
  (exists problems, Tracker.parse_problems text = Ok problems /\
     dict_get "1" problems =
     Some (Spec.body Spec.chapter_key_space (map strip ["1.3"]))).
Proof.
  apply (repeated_chapter_keeps_last_occurrence
           ("Chapter 1" ++ nl ++ "1.1, 1.2" ++ nl ++ "Chapter 1" ++ nl ++ "1.3")%string
           ["Chapter 1"; "1.1, 1.2"] ["1.3"] "Chapter 1" "1").
  - reflexivity.
  - reflexivity.
  - intros l [<-|[]]. vm_compute. discriminate.
Defined.

(** ** Dates *)

Lemma valid_bounds (d : date) :
  valid d = true ->
  1 <= year d <= 9999 /\ 1 <= month d <= 12 /\
  1 <= day d <= days_in_month (year d) (month d).
Proof. unfold valid, MINYEAR, MAXYEAR. intros H. split_bools. lia. Qed.

Lemma days_in_month_le (y m : Z) : 28 <= days_in_month y m <= 31.
Proof.
  unfold days_in_month.
  destruct (m =? 2); [destruct (is_leap y); lia|].
  destruct ((m =? 4) || (m =? 6) || (m =? 9) || (m =? 11)); lia.
Qed.

Lemma digit_val_digit_char (k : Z) :
  0 <= k < 10 -> digit_val (digit_char k) = Some k.
Proof.
  intros H.
  assert (C : k = 0 \/ k = 1 \/ k = 2 \/ k = 3 \/ k = 4 \/ k = 5 \/ k = 6 \/
              k = 7 \/ k = 8 \/ k = 9) by lia.
  repeat (destruct C as [C|C]); subst k; reflexivity.
Qed.

(** What [isoformat] writes, [fromisoformat] reads back. *)
Lemma fromisoformat_isoformat (d : date) :
  valid d = true -> fromisoformat (isoformat d) = Ok d.
Proof.
  intros V. pose proof (valid_bounds d V) as (Hy & Hm & Hd).
  pose proof (days_in_month_le (year d) (month d)) as Hdim.
  destruct d as [y m dd]. cbn [year month day] in *.
  unfold isoformat, fromisoformat. cbn [year month day].
  rewrite !digit_val_digit_char
    by (apply Z.mod_pos_bound; lia).
  assert (Ey : y / 1000 mod 10 * 1000 + y / 100 mod 10 * 100 +
               y / 10 mod 10 * 10 + y mod 10 = y).
  { Z.div_mod_to_equations. lia. }
  assert (Em : m / 10 mod 10 * 10 + m mod 10 = m).
  { Z.div_mod_to_equations. lia. }
  assert (Ed : dd / 10 mod 10 * 10 + dd mod 10 = dd).
  { Z.div_mod_to_equations. lia. }
  rewrite Ey, Em, Ed, V. reflexivity.
Qed.

Lemma days_before_year_succ (y : Z) :
  days_before_year (y + 1) =
  days_before_year y + 365 + (if is_leap y then 1 else 0).
Proof.
  unfold days_before_year, is_leap. cbv zeta.
  replace (y + 1 - 1) with y by lia.
  destruct (y mod 4 =? 0) eqn:E4; destruct (y mod 100 =? 0) eqn:E100;
    destruct (y mod 400 =? 0) eqn:E400; cbn [andb orb negb];
    rewrite ?Z.eqb_eq, ?Z.eqb_neq in *;
    Z.div_mod_to_equations; lia.
Qed.

Lemma days_before_year_mono (y y' : Z) :
  y <= y' -> days_before_year y <= days_before_year y'.
Proof.
  unfold days_before_year. cbv zeta. intros H.
  Z.div_mod_to_equations. lia.
Qed.

(** Within its year a valid date has a positive day number not beyond the
    length of the year. *)
Lemma day_of_year_bounds (y m dd : Z) :
  1 <= m <= 12 -> 1 <= dd <= days_in_month y m ->
  1 <= days_before_month y m + dd <= 365 + (if is_leap y then 1 else 0).
Proof.
  intros Hm Hd. unfold days_before_month, DAYS_BEFORE_MONTH, days_in_month in *.
  destruct (is_leap y); month_cases m; cbn -[Z.add] in *; lia.
Qed.

(** The next month starts where this one ends. *)
Lemma days_before_month_step (y m m' dd : Z) :
  1 <= m -> m < m' -> m' <= 12 -> dd <= days_in_month y m ->
  days_before_month y m + dd <= days_before_month y m'.
Proof.
  intros H1 H2 H3 Hd. unfold days_before_month, DAYS_BEFORE_MONTH, days_in_month in *.
  destruct (is_leap y); month_cases m; month_cases m'; cbn -[Z.add] in *; lia.
Qed.

(** The order of dates is the order of their ordinals. *)
Lemma toordinal_lt (a b : date) :
  valid a = true -> valid b = true -> lt a b = true -> toordinal a < toordinal b.
Proof.
  intros Va Vb. pose proof (valid_bounds a Va) as (Hya & Hma & Hda).
  pose proof (valid_bounds b Vb) as (Hyb & Hmb & Hdb).
  unfold lt, toordinal. intros H.
  apply orb_true_iff in H. destruct H as [H|H].
  - apply Z.ltb_lt in H.
    pose proof (day_of_year_bounds _ _ _ Hma Hda).
    pose proof (day_of_year_bounds _ _ _ Hmb Hdb).
    pose proof (days_before_year_succ (year a)).
    pose proof (days_before_year_mono (year a + 1) (year b)).
    lia.
  - apply andb_true_iff in H. destruct H as [Ey H]. apply Z.eqb_eq in Ey.
    rewrite Ey in *. apply orb_true_iff in H. destruct H as [H|H].
    + apply Z.ltb_lt in H.
      pose proof (days_before_month_step (year b) (month a) (month b) (day a)).
      lia.
    + apply andb_true_iff in H. destruct H as [Em H]. apply Z.eqb_eq in Em.
      apply Z.ltb_lt in H. rewrite Em. lia.
Qed.

Lemma toordinal_le (a b : date) :
  valid a = true -> valid b = true -> le a b = true -> toordinal a <= toordinal b.
Proof.
  intros Va Vb H. unfold le in H. apply orb_true_iff in H. destruct H as [H|H].
  - pose proof (toordinal_lt a b Va Vb H). lia.
  - unfold eqb in H. split_bools. unfold toordinal.
    replace (year a) with (year b) by lia.
    replace (month a) with (month b) by lia. lia.
Qed.

(** Two dates are ordered one way or the other. *)
Lemma lt_false_le (a b : date) : lt a b = false -> le b a = true.
Proof.
  unfold le, lt, eqb. intros H.
  destruct (Z.ltb_spec (year a) (year b)); [discriminate|].
  destruct (Z.ltb_spec (year b) (year a)); [reflexivity|].
  assert (E : year a = year b) by lia. rewrite E, Z.eqb_refl in *.
  cbn [orb andb] in *.
  destruct (Z.ltb_spec (month a) (month b)); [discriminate|].
  destruct (Z.ltb_spec (month b) (month a)); [reflexivity|].
  assert (E' : month a = month b) by lia. rewrite E', Z.eqb_refl in *.
  cbn [orb andb] in *.
  destruct (Z.ltb_spec (day a) (day b)); [discriminate|].
  destruct (Z.ltb_spec (day b) (day a)); [reflexivity|].
  assert (E'' : day b = day a) by lia. rewrite E'', Z.eqb_refl. reflexivity.
Qed.

(** ** Saving and loading the textbook list *)

Section Persistence.

Import Tracker.

Lemma from_dict_to_dict (t : Textbook) :
  valid (start_date t) = true -> valid (end_date t) = true ->
  from_dict (to_dict t) = Ok (reloaded t).
Proof.
  intros Vs Ve. unfold from_dict, to_dict.
  cbn [getitem dict_getitem dict_get String.eqb Ascii.eqb Bool.eqb bind
       fromisoformat_val].
  rewrite (fromisoformat_isoformat _ Vs), (fromisoformat_isoformat _ Ve).
  reflexivity.
Qed.

Lemma mapM_from_dict (ts : list Textbook) :
  Forall (fun t => valid (start_date t) = true /\ valid (end_date t) = true) ts ->
  mapM from_dict (map to_dict ts) = Ok (map reloaded ts).
Proof.
  induction 1 as [|t ts [Vs Ve] _ IH]; [reflexivity|].
  cbn [map mapM]. rewrite (from_dict_to_dict t Vs Ve), IH. reflexivity.
Qed.

(** The list read back after a save has every record, in order, with every
    field as it was saved, except that each completion map is empty. *)
Lemma load_after_save (ts : list Textbook) (d : disk) :
  writable d = true ->
  Forall (fun t => valid (start_date t) = true /\ valid (end_date t) = true) ts ->
  exists d', save_textbooks ts d = Ok d' /\
             load_textbooks d' = Ok (map reloaded ts).
Proof.
  intros W V. unfold save_textbooks. rewrite W. eexists. split; [reflexivity|].
  unfold load_textbooks. cbn [textbooks_file json_load iter bind].
  now apply mapM_from_dict.
Qed.

End Persistence.

(** C1 (the code breaks it): a record whose completion map marks problem
    3.2 complete is saved with that map, and comes back from
    [load_textbooks] with an empty one, so the loaded list differs from the
    saved one. *)
Theorem completion_map_lost_on_reload :
  let t := {| Tracker.name := PStr "QFT"; Tracker.author := PStr "Peskin";
              Tracker.total_pages := PInt 258; Tracker.current_page := PInt 80;
              Tracker.problems_dict := PDict [("3", PList [PStr "3.2"])];
              Tracker.start_date := mkdate 2025 1 13;
              Tracker.end_date := mkdate 2025 5 9;
              Tracker.completed_problems :=
                [("3.2", PDict [("complete", PBool true)])] |} in
  exists d,
    Tracker.save_textbooks [t] {| Tracker.textbooks_file := None;
                                  Tracker.writable := true |} = Ok d /\
    Tracker.load_textbooks d = Ok [Tracker.with_completed t []] /\
    Tracker.load_textbooks d <> Ok [t].
Proof.
  cbv zeta. eexists. split; [reflexivity|]. split; [reflexivity|].
  vm_compute. discriminate.
Qed.

(** ** Loading what is not a saved list *)

(** The sibling loader gives the empty map on every file that is neither
    a list nor an object. *)
Lemma load_completed_problems_degrades (f : file) :
  (forall l, f <> Json (PList l)) -> (forall d, f <> Json (PDict d)) ->
  QFT.load_completed_problems (Some f) = [].
Proof.
  intros Hl Hd. destruct f as [|[| | | |l|d]]; try reflexivity.
  - now destruct (Hl l).
  - now destruct (Hd d).
Qed.

(** C3 (the code breaks it): [load_textbooks] has no handler.  A file that
    is not JSON, a JSON number, and a list holding an object without the
    record's keys each end the load, and with it the start of the program,
    in an exception; the loader of the other script returns its empty map
    on the first two. *)
Theorem load_textbooks_raises_on_malformed_file :
  Tracker.load_textbooks
    {| Tracker.textbooks_file := Some Not_json; Tracker.writable := true |}
  = Raise JSONDecodeError /\
  Tracker.load_textbooks
    {| Tracker.textbooks_file := Some (Json (PInt 5)); Tracker.writable := true |}
  = Raise TypeError /\
  Tracker.load_textbooks
    {| Tracker.textbooks_file := Some (Json (PList [PDict []]));
       Tracker.writable := true |}
  = Raise KeyError /\
  QFT.load_completed_problems (Some Not_json) = [] /\
  QFT.load_completed_problems (Some (Json (PInt 5))) = [].
Proof. repeat split. Qed.

(** ** The derived figures *)

Section Metrics.

Import Tracker.

(** The day counts [update_display] shows, whatever the page fields hold. *)
Lemma update_display_days (today : date) (t : Textbook) (d : display) :
  update_display today t = Ok d ->
  total_days d = sub_days (end_date t) (start_date t) /\
  days_elapsed d =
    (if le (start_date t) today then Z.max 0 (sub_days today (start_date t)) else 0) /\
  days_left d =
    (if le today (end_date t) then Z.max 0 (sub_days (end_date t) today) else 0).
Proof.
  unfold update_display. cbv zeta.
  destruct (if negb (sub_days (end_date t) (start_date t) =? 0) then _ else _);
    cbn [bind]; [|discriminate].
  destruct (if truthy (total_pages t) then _ else _); cbn [bind]; [|discriminate].
  destruct (if 0 <? _ then _ else _); cbn [bind]; [|discriminate].
  intros H. injection H as <-. cbn. auto.
Qed.

(** Between the two dates the day counts of [update_display] add up to the
    whole period, and neither is ever negative. *)
Lemma update_display_days_inside (today : date) (t : Textbook) (d : display) :
  valid today = true -> valid (start_date t) = true -> valid (end_date t) = true ->
  update_display today t = Ok d ->
  0 <= days_elapsed d /\ 0 <= days_left d /\
  (le (start_date t) today = true -> le today (end_date t) = true ->
   days_elapsed d + days_left d = total_days d /\
   days_elapsed d <= total_days d /\ days_left d <= total_days d).
Proof.
  intros Vt Vs Ve H. destruct (update_display_days today t d H) as (-> & -> & ->).
  unfold sub_days. split; [|split].
  - destruct (le (start_date t) today); lia.
  - destruct (le today (end_date t)); lia.
  - intros L1 L2. rewrite L1, L2.
    pose proof (toordinal_le _ _ Vs Vt L1).
    pose proof (toordinal_le _ _ Vt Ve L2). lia.
Qed.

End Metrics.

(** C4 (the code breaks it): for the record of the scenario,
    2025-01-13 to 2025-05-09, [update_display] on 2025-06-01 shows 139 days
    elapsed out of 116, and on 2025-01-01 it shows 128 days left out of 116:
    neither count is clamped to the length of the period. *)
Theorem update_display_days_exceed_total :
  let t := {| Tracker.name := PStr "QFT"; Tracker.author := PStr "Peskin";
              Tracker.total_pages := PInt 258; Tracker.current_page := PInt 80;
              Tracker.problems_dict := PDict [];
              Tracker.start_date := mkdate 2025 1 13;
              Tracker.end_date := mkdate 2025 5 9;
              Tracker.completed_problems := [] |} in
  (exists d, Tracker.update_display (mkdate 2025 6 1) t = Ok d /\
             Tracker.total_days d = 116 /\ Tracker.days_elapsed d = 139 /\
             ~ Tracker.days_elapsed d <= Tracker.total_days d) /\
  (exists d, Tracker.update_display (mkdate 2025 1 1) t = Ok d /\
             Tracker.total_days d = 116 /\ Tracker.days_left d = 128 /\
             ~ Tracker.days_left d <= Tracker.total_days d).
Proof.
  cbv zeta. split; eexists; (split; [reflexivity|]); cbn; repeat split; lia.
Qed.

(** The scenario of the specification: on 2025-03-01, 47 of the 116 days
    are gone, and page 80 is behind the expected page. *)
Example semester_scenario :
  exists w, QFT.update_widget (mkdate 2025 3 1) (PInt 80) = Ok w /\
            QFT.TOTAL_SEMESTER_DAYS = 116 /\ QFT.days_elapsed w = 47 /\
            QFT.days_left w = 69 /\ QFT.status w = QFT.Behind.
Proof. eexists. split; [reflexivity|]. repeat split. Qed.

(** The other script clamps: its two day counts always lie between 0 and
    the length of the semester and add up to it. *)
Lemma update_widget_days_clamped (today : date) (page : pyval) (w : QFT.widget) :
  valid today = true ->
  QFT.update_widget today page = Ok w ->
  0 <= QFT.days_elapsed w <= QFT.TOTAL_SEMESTER_DAYS /\
  0 <= QFT.days_left w <= QFT.TOTAL_SEMESTER_DAYS /\
  QFT.days_elapsed w + QFT.days_left w = QFT.TOTAL_SEMESTER_DAYS.
Proof.
  intros V. unfold QFT.update_widget.
  assert (T : QFT.TOTAL_SEMESTER_DAYS = 116) by reflexivity.
  destruct (lt today QFT.SEMESTER_START) eqn:L1;
    [|destruct (gt today QFT.SEMESTER_END) eqn:L2].
  - rewrite T. cbn [bind truediv Z.eqb].
    destruct (as_number page); cbn [bind]; [|discriminate].
    cbn [Z.ltb Z.compare].
    intros H. injection H as <-. cbn [QFT.days_elapsed QFT.days_left]. lia.
  - rewrite T. cbn [bind truediv Z.eqb].
    destruct (as_number page); cbn [bind]; [|discriminate].
    cbn [Z.ltb Z.compare].
    intros H. injection H as <-. cbn [QFT.days_elapsed QFT.days_left]. lia.
  - pose proof (toordinal_le QFT.SEMESTER_START today eq_refl V
                  (lt_false_le _ _ L1)) as O1.
    pose proof (toordinal_le today QFT.SEMESTER_END V eq_refl
                  (lt_false_le _ _ L2)) as O2.
    unfold truediv at 1. rewrite T. cbn [Z.eqb bind].
    destruct (as_number page); cbn [bind]; [|discriminate].
    unfold truediv at 1. unfold QFT.TOTAL_PAGES at 1. cbn [Z.eqb bind].
    destruct (if 0 <? _ then _ else _); cbn [bind]; [|discriminate].
    intros H. injection H as <-. cbn [QFT.days_elapsed QFT.days_left].
    unfold sub_days in *.
    change (toordinal QFT.SEMESTER_START) with 739264 in *.
    change (toordinal QFT.SEMESTER_END) with 739380 in *. lia.
Qed.

Section NoDivisionByZero.

Import Tracker.

Lemma truediv_nonzero (a b : Z) : b <> 0 -> truediv a b = Ok (inject_Z a / inject_Z b)%Q.
Proof. intros H. unfold truediv. apply Z.eqb_neq in H. now rewrite H. Qed.

(** The three quotients of [update_display], each behind its guard. *)
Lemma semester_quotient (e total : Z) :
  exists q, (if negb (total =? 0)
             then q <- truediv e total ;; Ok (q * 100)%Q else Ok 0%Q) = Ok q /\
            (total = 0 -> q = 0%Q).
Proof.
  destruct (Z.eqb_spec total 0) as [->|N]; cbn [negb].
  - now exists 0%Q.
  - rewrite (truediv_nonzero _ _ N). cbn [bind]. eexists. split; [reflexivity|].
    intros E. contradiction.
Qed.

Lemma textbook_quotient (cp tp : pyval) :
  let r := if truthy tp
           then c <- as_number cp ;; p <- as_number tp ;;
                q <- truediv c p ;; Ok (q * 100)%Q
           else Ok 0%Q in
  r <> Raise ZeroDivisionError /\
  (tp = PInt 0 -> r = Ok 0%Q) /\
  (forall c p, cp = PInt c -> tp = PInt p -> exists q, r = Ok q).
Proof.
  cbv zeta. split; [|split].
  - destruct tp as [|b|p|s|l|d]; cbn [truthy]; try discriminate.
    + destruct b; [|discriminate]. number cp.
      cbn [as_number bind]. rewrite truediv_nonzero by lia. discriminate.
    + destruct (Z.eqb_spec p 0) as [->|N]; cbn [negb]; [discriminate|].
      number cp. cbn [as_number bind].
      rewrite (truediv_nonzero _ _ N). discriminate.
    + destruct (negb (String.eqb s "")); [|discriminate]. number cp. discriminate.
    + destruct l; [discriminate|]. number cp. discriminate.
    + destruct d; [discriminate|]. number cp. discriminate.
  - intros ->. reflexivity.
  - intros c p -> ->. cbn [truthy as_number bind].
    destruct (Z.eqb_spec p 0) as [->|N]; cbn [negb]; [now eexists|].
    rewrite (truediv_nonzero _ _ N). now eexists.
Qed.

Lemma pace_quotient (cp tp : pyval) (left : Z) :
  let r := if 0 <? left
           then p <- as_number tp ;; c <- as_number cp ;;
                q <- truediv (p - c) left ;; Ok (Some q)
           else Ok None in
  r <> Raise ZeroDivisionError /\
  (forall c p, cp = PInt c -> tp = PInt p -> exists q, r = Ok q).
Proof.
  cbv zeta. destruct (Z.ltb_spec 0 left) as [L|L].
  - assert (N : left <> 0) by lia. split.
    + number tp. number cp.
      rewrite (truediv_nonzero _ _ N). discriminate.
    + intros c p -> ->. cbn [as_number bind].
      rewrite (truediv_nonzero _ _ N). now eexists.
  - split; [discriminate|]. intros. now eexists.
Qed.

End NoDivisionByZero.



(** ** Setting the current page *)

Lemma int_raises (s : string) (e : exn) : int s = Raise e -> e = ValueError.
Proof.
  unfold int.
  destruct (match strip s with
            | String "-" t' => option_map Z.opp (int_unsigned t')
            | String "+" t' => int_unsigned t'
            | _ => int_unsigned (strip s)
            end); congruence.
Qed.

(** C6: a page text that is not an integer between 0 and the total is
    rejected by both scripts, and the rejected call changes nothing: in
    [progress_tracker.py] the whole application state, the record's current
    page with it, is what it was; in the other script the state is what it
    was and the call ends in one of the two warnings. *)
Theorem update_page_rejects_out_of_range (page_entry : string) (total : Z)
    (H : page_in_range page_entry total = false) :
  (forall a t, Tracker.selected a = Some t ->
     Tracker.total_pages t = PInt total ->
     Tracker.update_page page_entry a = (a, Tracker.Returned)) /\
  (total = QFT.TOTAL_PAGES ->
   forall st, exists w,
     QFT.update_page page_entry st = (st, w) /\
     (w = QFT.Out_of_range_warning \/ w = QFT.Not_a_number_warning)).
Proof.
  unfold page_in_range in H. split.
  - intros a t Hsel Htotal. unfold Tracker.update_page. rewrite Hsel.
    destruct (isdigit page_entry); [|reflexivity].
    destruct (int page_entry) as [n|e] eqn:E.
    + rewrite Htotal. unfold int_le. cbn [as_number bind].
      destruct (0 <=? n); [|reflexivity].
      cbn [andb] in H. now rewrite H.
    + now rewrite (int_raises _ _ E).
  - intros -> st. unfold QFT.update_page.
    destruct (int page_entry) as [n|e] eqn:E.
    + rewrite H. eexists. split; [reflexivity | now left].
    + rewrite (int_raises _ _ E). eexists. split; [reflexivity | now right].
Qed.

Lemma update_page_rejects_out_of_range_witness :
  (forall a t, Tracker.selected a = Some t ->
     Tracker.total_pages t = PInt 258 ->
     Tracker.update_page "300" a = (a, Tracker.Returned)) /\
  (258 = QFT.TOTAL_PAGES ->
   forall st, exists w,
     QFT.update_page "300" st = (st, w) /\
     (w = QFT.Out_of_range_warning \/ w = QFT.Not_a_number_warning)).
Proof.
  apply (update_page_rejects_out_of_range "300" 258). reflexivity.
Defined.

(** ** Marking problems *)

Lemma nth_error_replace_nth {A} (l : list A) (i : nat) (x y : A) :
  nth_error l i = Some x -> nth_error (Tracker.replace_nth i y l) i = Some y.
Proof.
  revert i. induction l as [|z l IH]; intros [|i] H; try discriminate.
  - reflexivity.
  - cbn in *. now apply IH.
Qed.

(** After [store_selected] the selected record is the stored one, whether
    or not the save went through. *)
Lemma selected_store_selected (a : Tracker.app) (t t' : Tracker.Textbook) :
  Tracker.selected a = Some t ->
  Tracker.selected (fst (Tracker.store_selected a t')) = Some t'.
Proof.
  unfold Tracker.selected, Tracker.store_selected.
  destruct (Tracker.current_textbook a) as [i|]; [|discriminate].
  intros H.
  destruct (Tracker.save_textbooks _ _); cbn [fst Tracker.current_textbook
    Tracker.textbooks]; now apply (nth_error_replace_nth _ _ t).
Qed.

Lemma completed_after_save (completed : dict pyval) (st : QFT.state) :
  QFT.completed_problems
    (QFT.save_completed_problems completed (QFT.with_completed st completed))
  = completed.
Proof.
  unfold QFT.save_completed_problems, QFT.with_completed.
  cbn [QFT.writable QFT.completed_problems].
  now destruct (QFT.writable st).
Qed.

(** C5: marking a problem incomplete removes its entry from the completion
    map, document pointer included, and marking it complete afterwards
    creates a new entry without a document: in the script with documents
    the entry is [{"complete": True, "document": None}]; in
    [progress_tracker.py], which keeps no documents, it is
    [{"complete": True}], whose document reads as [None]. *)
Theorem unmark_then_mark_gives_fresh_entry (prob : string) :
  (forall st,
     let st1 := fst (QFT.mark_problem false [Problem_row prob] st) in
     dict_get prob (QFT.completed_problems st1) = None /\
     exists st2,
       QFT.mark_problem true [Problem_row prob] st1 = (st2, QFT.Marked) /\
       dict_get prob (QFT.completed_problems st2)
       = Some (PDict [("complete", PBool true); ("document", PNone)])) /\
  (forall a t, Tracker.selected a = Some t ->
     let a1 := fst (Tracker.mark_problem false [Problem_row prob] a) in
     let a2 := fst (Tracker.mark_problem true [Problem_row prob] a1) in
     (exists t1, Tracker.selected a1 = Some t1 /\
                 dict_get prob (Tracker.completed_problems t1) = None) /\
     (exists t2 entry,
        Tracker.selected a2 = Some t2 /\
        dict_get prob (Tracker.completed_problems t2) = Some entry /\
        entry = PDict [("complete", PBool true)] /\
        get entry "document" = Ok PNone)).
Proof.
  split.
  - intros st. cbv zeta.
    assert (G : dict_get prob
                  (QFT.completed_problems
                     (fst (QFT.mark_problem false [Problem_row prob] st))) = None).
    { unfold QFT.mark_problem. cbn [QFT.mark_items QFT.mark_item].
      destruct (dict_contains prob (QFT.completed_problems st)) eqn:C; cbn [fst].
      - rewrite completed_after_save. apply dict_get_del_same.
      - cbn [QFT.with_completed QFT.completed_problems].
        now apply dict_contains_false. }
    split; [exact G|].
    unfold QFT.mark_problem at 1. cbn [QFT.mark_items QFT.mark_item].
    rewrite G. cbn [setitem bind dict_set contains dict_contains dict_get
                    String.eqb Ascii.eqb Bool.eqb negb].
    eexists. split; [reflexivity|].
    rewrite completed_after_save. apply dict_get_set_same.
  - intros a t Hsel. cbv zeta.
    assert (M1 : Tracker.mark_problem false [Problem_row prob] a =
                 Tracker.store_selected a
                   (Tracker.with_completed t
                      (dict_del prob (Tracker.completed_problems t)))).
    { unfold Tracker.mark_problem. now rewrite Hsel. }
    rewrite M1.
    pose proof (selected_store_selected a t
      (Tracker.with_completed t (dict_del prob (Tracker.completed_problems t)))
      Hsel) as S1.
    set (a1 := fst (Tracker.store_selected a
                      (Tracker.with_completed t
                         (dict_del prob (Tracker.completed_problems t))))) in *.
    split.
    + eexists. split; [exact S1|].
      cbn [Tracker.with_completed Tracker.completed_problems].
      apply dict_get_del_same.
    + assert (M2 : Tracker.mark_problem true [Problem_row prob] a1 =
                   Tracker.store_selected a1
                     (Tracker.with_completed
                        (Tracker.with_completed t
                           (dict_del prob (Tracker.completed_problems t)))
                        (dict_set prob (PDict [("complete", PBool true)])
                           (dict_del prob (Tracker.completed_problems t))))).
      { unfold Tracker.mark_problem. now rewrite S1. }
      rewrite M2. eexists. eexists.
      split; [eapply selected_store_selected; exact S1|].
      split; [|split; reflexivity].
      cbn [Tracker.with_completed Tracker.completed_problems].
      apply dict_get_set_same.
Qed.

Lemma unmark_then_mark_gives_fresh_entry_witness :
  let t := {| Tracker.name := PStr "QFT"; Tracker.author := PStr "Peskin";
              Tracker.total_pages := PInt 258; Tracker.current_page := PInt 80;
              Tracker.problems_dict := PDict [("3", PList [PStr "3.2"])];
              Tracker.start_date := mkdate 2025 1 13;
              Tracker.end_date := mkdate 2025 5 9;
              Tracker.completed_problems :=
                [("3.2", PDict [("complete", PBool true)])] |} in
  let a := {| Tracker.textbooks := [t]; Tracker.current_textbook := Some 0%nat;
              Tracker.storage := {| Tracker.textbooks_file := None;
                                    Tracker.writable := true |} |} in
  let a1 := fst (Tracker.mark_problem false [Problem_row "3.2"] a) in
  let a2 := fst (Tracker.mark_problem true [Problem_row "3.2"] a1) in
  (exists t1, Tracker.selected a1 = Some t1 /\
              dict_get "3.2" (Tracker.completed_problems t1) = None) /\
  (exists t2 entry,
     Tracker.selected a2 = Some t2 /\
     dict_get "3.2" (Tracker.completed_problems t2) = Some entry /\
     entry = PDict [("complete", PBool true)] /\
     get entry "document" = Ok PNone).
Proof.
  intros t a.
  exact (proj2 (unmark_then_mark_gives_fresh_entry "3.2") a t eq_refl).
Defined.

(** ** Attaching a document *)

Lemma not_complete_marked (prob : string) (completed : dict pyval) :
  QFT.not_complete prob completed = Ok false -> marked_complete prob completed = true.
Proof.
  unfold QFT.not_complete, marked_complete.
  destruct (dict_get prob completed) as [[| | | | |entry]|]; cbn; try discriminate.
  destruct (dict_get "complete" entry); cbn.
  - intros H. injection H as H. now apply negb_false_iff in H.
  - discriminate.
Qed.

Lemma not_complete_unmarked (prob : string) (completed : dict pyval) :
  marked_complete prob completed = false ->
  entry_is_record prob completed = true ->
  QFT.not_complete prob completed = Ok true.
Proof.
  unfold QFT.not_complete, marked_complete, entry_is_record.
  destruct (dict_get prob completed) as [[| | | | |entry]|]; cbn;
    try discriminate; [|reflexivity].
  destruct (dict_get "complete" entry); cbn; [|reflexivity].
  now intros ->.
Qed.

(** C9: with a problem row selected, [upload_document] ends in "Upload
    successful" only if the problem has an entry marked complete; when it
    has none, the state is left as it was, and the call ends in the "Not
    complete" message whenever the problem's entry, if any, is a completion
    record.  And the attach does go through for a complete problem, a chosen
    file and a copy that worked: the entry then holds the new path. *)
Theorem upload_document_needs_completion (prob : string) (rest : list tree_item)
    (file_path : string) (copied : bool) (st : QFT.state) :
  let r := QFT.upload_document (Problem_row prob :: rest) file_path copied st in
  (snd r = QFT.Upload_successful ->
   marked_complete prob (QFT.completed_problems st) = true) /\
  (marked_complete prob (QFT.completed_problems st) = false ->
   fst r = st /\
   (entry_is_record prob (QFT.completed_problems st) = true ->
    snd r = QFT.Not_complete)) /\
  (marked_complete prob (QFT.completed_problems st) = true ->
   file_path <> "" -> copied = true ->
   snd r = QFT.Upload_successful /\
   exists entry,
     dict_get prob (QFT.completed_problems (fst r)) = Some entry /\
     get entry "document"
     = Ok (PStr (path_join QFT.UPLOAD_DIR (prob ++ splitext_ext file_path)%string))).
Proof.
  cbv zeta. unfold QFT.upload_document. split; [|split].
  - destruct (QFT.not_complete prob (QFT.completed_problems st)) as [[|]|e] eqn:N;
      cbn [snd]; try discriminate.
    intros _. now apply not_complete_marked.
  - intros M.
    destruct (QFT.not_complete prob (QFT.completed_problems st)) as [[|]|e] eqn:N.
    + split; [reflexivity | reflexivity].
    + apply not_complete_marked in N. congruence.
    + split; [reflexivity|]. intros S.
      rewrite (not_complete_unmarked _ _ M S) in N. discriminate.
  - intros M Hpath ->. unfold marked_complete in M. unfold QFT.not_complete.
    destruct (dict_get prob (QFT.completed_problems st)) as [[| | | | |entry]|]
      eqn:G; try discriminate.
    cbn [get bind]. destruct (dict_get "complete" entry) as [c|]; [|discriminate].
    rewrite M. cbn [negb]. apply String.eqb_neq in Hpath. rewrite Hpath.
    unfold dict_getitem. rewrite G. cbn [bind setitem snd fst].
    split; [reflexivity|]. rewrite completed_after_save. eexists.
    split; [apply dict_get_set_same|].
    cbn [get]. now rewrite dict_get_set_same.
Qed.

Lemma upload_document_needs_completion_witness :
  let st := {| QFT.completed_problems := [];
               QFT.current_page := PInt 0;
               QFT.completed_file := None; QFT.config_file := None;
               QFT.writable := true |} in
  let st' := {| QFT.completed_problems :=
                  [("3.2", PDict [("complete", PBool true); ("document", PNone)])];
                QFT.current_page := PInt 0;
                QFT.completed_file := None; QFT.config_file := None;
                QFT.writable := true |} in
  QFT.upload_document [Problem_row "3.2"] "/home/me/work.pdf" true st
  = (st, QFT.Not_complete) /\
  snd (QFT.upload_document [Problem_row "3.2"] "/home/me/work.pdf" true st')
  = QFT.Upload_successful.
Proof.
  intros st st'. split.
  - destruct (upload_document_needs_completion "3.2" [] "/home/me/work.pdf" true st)
      as (_ & H & _).
    destruct (H eq_refl) as [A B].
    rewrite (surjective_pairing (QFT.upload_document _ _ _ _)).
    now rewrite A, (B eq_refl).
  - destruct (upload_document_needs_completion "3.2" [] "/home/me/work.pdf" true st')
      as (_ & _ & H).
    apply H; [reflexivity | discriminate | reflexivity].
Defined.

(** ** Adding a textbook *)




(** * Further properties of the two scripts *)

(** ** Saving and loading, continued *)

Lemma from_dict_completed (data : pyval) (t : Tracker.Textbook) :
  Tracker.from_dict data = Ok t -> Tracker.completed_problems t = [].
Proof.
  unfold Tracker.from_dict. intros H.
  repeat match type of H with
         | bind ?r _ = Ok _ => destruct r; cbn [bind] in H; [|discriminate]
         end.
  now injection H as <-.
Qed.

Lemma fromisoformat_valid (s : string) (d : date) :
  fromisoformat s = Ok d -> valid d = true.
Proof.
  unfold fromisoformat.
  repeat match goal with
         | |- context [match ?x with _ => _ end] =>
             lazymatch x with
             | context [match _ with _ => _ end] => fail
             | _ => destruct x eqn:?; try discriminate
             end
         end.
  intros H. injection H as <-. assumption.
Qed.

(** X1: saving a list of records to a writable disk and loading it gives
    back every record, in order, with each field as it was except the
    completion map, which comes back empty; so a list whose completion maps
    are all empty comes back as it was. *)
Theorem save_then_load (ts : list Tracker.Textbook) (d : Tracker.disk)
    (W : Tracker.writable d = true) (V : Forall dated ts) :
  exists d', Tracker.save_textbooks ts d = Ok d' /\
             Tracker.load_textbooks d' = Ok (map reloaded ts) /\
             (Forall (fun t => Tracker.completed_problems t = []) ts ->
              Tracker.load_textbooks d' = Ok ts).
Proof.
  destruct (load_after_save ts d W V) as (d' & S & L).
  exists d'. split; [exact S|]. split; [exact L|].
  intros E. rewrite L. f_equal.
  clear -E. induction E as [|t ts Ht _ IH]; [reflexivity|].
  cbn [map]. rewrite IH. f_equal.
  destruct t. unfold reloaded, Tracker.with_completed. cbn in *. now subst.
Qed.

Lemma save_then_load_witness :
  let t := Tracker.Textbook_init (PStr "QFT") (PStr "Peskin") (PInt 258)
             (PDict [("3", PList [PStr "3.2"])]) (mkdate 2025 1 13)
             (mkdate 2025 5 9) (PInt 80) in
  exists d',
    Tracker.save_textbooks [t] {| Tracker.textbooks_file := None;
                                  Tracker.writable := true |} = Ok d' /\
    Tracker.load_textbooks d' = Ok [t].
Proof.
  intros t.
  destruct (save_then_load [t] {| Tracker.textbooks_file := None;
                                   Tracker.writable := true |} eq_refl)
    as (d' & S & _ & L).
  - repeat constructor.
  - exists d'. split; [exact S|]. apply L. repeat constructor.
Defined.

(** X2: whatever the file holds, no record that [load_textbooks] returns
    has a completion entry. *)
Theorem loaded_records_have_no_completion (d : Tracker.disk)
    (ts : list Tracker.Textbook) (L : Tracker.load_textbooks d = Ok ts) :
  Forall (fun t => Tracker.completed_problems t = []) ts.
Proof.
  unfold Tracker.load_textbooks in L.
  destruct (Tracker.textbooks_file d) as [f|].
  - destruct (json_load f) as [data|]; cbn [bind] in L; [|discriminate].
    destruct (iter data) as [tds|]; cbn [bind] in L; [|discriminate].
    revert ts L. induction tds as [|td tds IH]; intros ts L; cbn [mapM] in L.
    + injection L as <-. constructor.
    + destruct (Tracker.from_dict td) as [t|] eqn:F; cbn [bind] in L; [|discriminate].
      destruct (mapM Tracker.from_dict tds) as [ts'|]; cbn [bind] in L; [|discriminate].
      injection L as <-. constructor; [now apply (from_dict_completed td)|].
      now apply IH.
  - injection L as <-. constructor.
Qed.

Lemma loaded_records_have_no_completion_witness :
  Forall (fun t => Tracker.completed_problems t = [])
    [Tracker.Textbook_init (PStr "QFT") (PStr "Peskin") (PInt 258) (PDict [])
       (mkdate 2025 1 13) (mkdate 2025 5 9) (PInt 80)].
Proof.
  apply (loaded_records_have_no_completion
    {| Tracker.textbooks_file :=
         Some (Json (PList [PDict
           [("name", PStr "QFT"); ("author", PStr "Peskin");
            ("total_pages", PInt 258); ("current_page", PInt 80);
            ("problems_dict", PDict []); ("start_date", PStr "2025-01-13");
            ("end_date", PStr "2025-05-09");
            ("completed_problems",
             PDict [("3.2", PDict [("complete", PBool true)])])]]));
       Tracker.writable := true |}).
  reflexivity.
Defined.

(** ** The parser, continued *)

Lemma rstrip_blank (s : string) : all_space s = true -> rstrip s = "".
Proof.
  induction s as [|c s IH]; [reflexivity|].
  cbn [all_space rstrip]. intros H. apply andb_true_iff in H. destruct H as [Hc Hs].
  now rewrite (IH Hs), Hc.
Qed.

Lemma rstrip_id (s : string) : tails_ok s = true -> rstrip s = s.
Proof.
  induction s as [|c s IH]; [reflexivity|].
  intros H. cbn [tails_ok] in H. apply andb_true_iff in H. destruct H as [Hc Hs].
  cbn [rstrip]. rewrite (IH Hs). destruct s as [|c' s']; [|reflexivity].
  cbn in Hc. destruct (is_space c); [discriminate | reflexivity].
Qed.

Lemma lstrip_lstrip (s : string) : lstrip (lstrip s) = lstrip s.
Proof.
  induction s as [|c s IH]; [reflexivity|].
  cbn [lstrip]. destruct (is_space c) eqn:E; [exact IH|].
  cbn [lstrip]. now rewrite E.
Qed.

(** Trimming twice is trimming once. *)
Lemma strip_strip (s : string) : strip (strip s) = strip s.
Proof.
  unfold strip at 1. rewrite (rstrip_id _ (strip_tails_ok s)).
  unfold strip. apply lstrip_lstrip.
Qed.

Lemma split_ws_no_space (s t : string) : In t (split_ws s) -> no_space t = true.
Proof.
  revert t. induction s as [|c s IH]; intros t H; simpl in H; [contradiction|].
  destruct (is_space c) eqn:Ec; [now apply IH|].
  destruct s as [|c' s'].
  - destruct H as [<-|[]]. cbn. now rewrite Ec.
  - destruct (is_space c') eqn:Ec'.
    + destruct H as [<-|H]; [cbn; now rewrite Ec | now apply IH].
    + destruct (split_ws (String c' s')) as [|u us] eqn:Eu.
      * destruct H as [<-|[]]. cbn. now rewrite Ec.
      * destruct H as [<-|H].
        -- cbn [no_space]. rewrite Ec. cbn [negb andb]. apply IH. now left.
        -- apply IH. now right.
Qed.

Section DictKeys.

Context {V : Type}.

Lemma in_dict_set (d : dict V) (k : string) (v : V) (kv : string * V) :
  In kv (dict_set k v d) -> kv = (k, v) \/ In kv d.
Proof.
  induction d as [|[k0 v0] d IH]; cbn [dict_set].
  - intros [<-|[]]. now left.
  - destruct (String.eqb k k0) eqn:E.
    + apply String.eqb_eq in E. subst k0. intros [<-|H]; [now left | right; now right].
    + intros [<-|H]; [right; now left|].
      destruct (IH H) as [->|H']; [now left | right; now right].
Qed.

Lemma dict_set_nodup (d : dict V) (k : string) (v : V) :
  NoDup (map fst d) -> NoDup (map fst (dict_set k v d)).
Proof.
  induction d as [|[k0 v0] d IH]; cbn [dict_set map fst]; intros N.
  - constructor; [intros [] | constructor].
  - destruct (String.eqb k k0) eqn:E; [exact N|].
    inversion N as [|? ? Hn Hd]; subst. cbn [map fst]. constructor; [|now apply IH].
    intros Hin. apply in_map_iff in Hin. destruct Hin as ([k1 v1] & Hk & Hin).
    cbn [fst] in Hk. subst k1.
    destruct (in_dict_set _ _ _ _ Hin) as [Heq|Hin'].
    + injection Heq as -> _. now rewrite String.eqb_refl in E.
    + apply Hn. apply in_map_iff. now exists (k0, v1).
Qed.

End DictKeys.

Section GrammarFacts.

Variable key : string -> option string.

Lemma collect_nodup (cs : list (string * list string)) (d : dict (list string)) :
  NoDup (map fst d) -> NoDup (map fst (Spec.collect cs d)).
Proof.
  unfold Spec.collect. revert d.
  induction cs as [|[k b] cs IH]; intros d N; [exact N|].
  cbn [fold_left fst snd]. apply IH. now apply dict_set_nodup.
Qed.

Lemma in_collect (cs : list (string * list string)) (d : dict (list string))
    (kv : string * list string) :
  In kv (Spec.collect cs d) -> In kv cs \/ In kv d.
Proof.
  unfold Spec.collect. revert d.
  induction cs as [|[k b] cs IH]; intros d H; [now right|].
  cbn [fold_left fst snd] in H. destruct (IH _ H) as [H'|H'].
  - left. now right.
  - destruct (in_dict_set _ _ _ _ H') as [->|H'']; [left; now left | now right].
Qed.

Lemma body_trimmed (lines : list string) (p : string) :
  In p (Spec.body key lines) -> strip p = p.
Proof.
  induction lines as [|l lines IH]; cbn [Spec.body]; [intros []|].
  destruct (key l); [intros []|].
  intros H. apply in_app_or in H. destruct H as [H|H]; [|now apply IH].
  unfold Spec.pieces in H. destruct (String.eqb l ""); [destruct H|].
  apply in_map_iff in H. destruct H as (x & <- & _). apply strip_strip.
Qed.

Lemma chapters_bodies (lines : list string) (k : string) (ps : list string) :
  In (k, ps) (Spec.chapters key lines) -> exists rest, ps = Spec.body key rest.
Proof.
  induction lines as [|l lines IH]; cbn [Spec.chapters]; [intros []|].
  destruct (key l).
  - intros [H|H]; [injection H as _ <-; now exists lines | now apply IH].
  - apply IH.
Qed.

Lemma chapters_none (lines : list string) :
  (forall l, In l lines -> key l = None) -> Spec.chapters key lines = [].
Proof.
  induction lines as [|l lines IH]; intros H; [reflexivity|].
  cbn [Spec.chapters]. rewrite (H l) by now left.
  apply IH. intros l' Hl. apply H. now right.
Qed.

End GrammarFacts.

(** X3: a chapter text that is empty or all whitespace parses to the empty
    map. *)
Theorem parse_problems_blank (text : string) (B : all_space text = true) :
  Tracker.parse_problems text = Ok [].
Proof.
  unfold Tracker.parse_problems, strip. now rewrite (rstrip_blank _ B).
Qed.

Lemma parse_problems_blank_witness :
  Tracker.parse_problems ("  " ++ nl ++ tab ++ nl)%string = Ok [].
Proof. apply parse_problems_blank. reflexivity. Defined.

(** X4: the chapter keys of a parsed text are pairwise different, and each
    is a non-empty token without whitespace. *)
Theorem parse_problems_keys (text : string) (problems : dict (list string))
    (P : Tracker.parse_problems text = Ok problems) :
  NoDup (map fst problems) /\
  forall k, In k (map fst problems) -> k <> "" /\ no_space k = true.
Proof.
  rewrite parse_problems_grammar in P. injection P as <-. unfold Spec.parse.
  split; [apply collect_nodup; constructor|].
  intros k Hk. apply in_map_iff in Hk. destruct Hk as ([k' ps] & <- & Hin).
  cbn [fst]. destruct (in_collect _ _ _ Hin) as [H|[]].
  destruct (chapters_keys _ _ _ _ H) as (l & Hl & Hkey).
  unfold Spec.chapter_key_space in Hkey.
  destruct (startswith "chapter " (lower l)); [|discriminate].
  apply nth_error_In in Hkey.
  split; [now apply (split_ws_tokens l) | now apply (split_ws_no_space l)].
Qed.

Lemma parse_problems_keys_witness :
  NoDup (map fst [("1", ["1.3"]); ("2", ["2.1"])]) /\
  forall k, In k (map fst [("1", ["1.3"]); ("2", ["2.1"])]) ->
            k <> "" /\ no_space k = true.
Proof.
  apply (parse_problems_keys
    ("Chapter 1" ++ nl ++ "1.1" ++ nl ++ "Chapter 2" ++ nl ++ "2.1" ++ nl ++
     "chapter 1" ++ nl ++ "1.3")%string).
  reflexivity.
Defined.

(** X5: every problem identifier of a parsed text is trimmed: trimming it
    again changes nothing. *)
Theorem parse_problems_trimmed (text : string) (problems : dict (list string))
    (P : Tracker.parse_problems text = Ok problems) :
  forall k ps p, In (k, ps) problems -> In p ps -> strip p = p.
Proof.
  rewrite parse_problems_grammar in P. injection P as <-. unfold Spec.parse.
  intros k ps p Hin Hp. destruct (in_collect _ _ _ Hin) as [H|[]].
  destruct (chapters_bodies _ _ _ _ H) as [rest ->].
  now apply (body_trimmed Spec.chapter_key_space rest).
Qed.

Lemma parse_problems_trimmed_witness :
  Tracker.parse_problems ("Chapter 1" ++ nl ++ "  1.1 ,  1.2a ")%string
  = Ok [("1", ["1.1"; "1.2a"])] /\
  strip "1.2a" = "1.2a"%string.
Proof.
  split; [reflexivity|].
  apply (parse_problems_trimmed ("Chapter 1" ++ nl ++ "  1.1 ,  1.2a ")%string
           [("1", ["1.1"; "1.2a"])] eq_refl "1" ["1.1"; "1.2a"]).
  - now left.
  - right. now left.
Defined.

(** X6: a text none of whose trimmed lines starts with "chapter " (in any
    letter case) parses to the empty map, whatever else it holds. *)
Theorem parse_problems_without_chapter (text : string)
    (N : forall l, In l (split_on "010" (strip text)) ->
                   startswith "chapter " (lower (strip l)) = false) :
  Tracker.parse_problems text = Ok [].
Proof.
  rewrite parse_problems_grammar. unfold Spec.parse.
  rewrite chapters_none; [reflexivity|].
  intros l Hl. apply in_map_iff in Hl. destruct Hl as (raw & <- & Hraw).
  unfold Spec.chapter_key_space. now rewrite (N raw Hraw).
Qed.

Lemma parse_problems_without_chapter_witness :
  Tracker.parse_problems ("1.1, 1.2" ++ nl ++ "Chapter" ++ nl ++ "2.1")%string = Ok [].
Proof.
  apply parse_problems_without_chapter.
  intros l [<-|[<-|[<-|[]]]]; reflexivity.
Defined.

(** ** Adding a textbook, continued *)

Section Adding.

Variables (en : Tracker.entries) (a : Tracker.app) (s e : date) (n : Z).

Hypothesis Hstart : fromisoformat (Tracker.entry_start en) = Ok s.
Hypothesis Hend : fromisoformat (Tracker.entry_end en) = Ok e.
Hypothesis Horder : gt s e = false.
Hypothesis Hpages : int (Tracker.entry_pages en) = Ok n.

(** The record the dialog builds from valid entries. *)
Lemma new_textbook_built :
  Tracker.new_textbook en =
  Ok {| Tracker.name := PStr (Tracker.entry_name en);
        Tracker.author := PStr (Tracker.entry_author en);
        Tracker.total_pages := PInt n;
        Tracker.current_page := PInt 0;
        Tracker.problems_dict :=
          Tracker.problems_value
            (Spec.parse Spec.chapter_key_space (Tracker.entry_problems en));
        Tracker.start_date := s;
        Tracker.end_date := e;
        Tracker.completed_problems := [] |}.
Proof.
  unfold Tracker.new_textbook.
  rewrite Hstart, Hend. cbn [bind]. rewrite Horder, parse_problems_grammar.
  cbn [bind]. rewrite Hpages. reflexivity.
Qed.

End Adding.





(** ** Setting the current page, continued *)

Lemma nth_error_replace_nth_other {A} (l : list A) (i j : nat) (y : A) :
  j <> i -> nth_error (Tracker.replace_nth i y l) j = nth_error l j.
Proof.
  revert i j. induction l as [|z l IH]; intros [|i] [|j] H; try reflexivity.
  - contradiction.
  - cbn. apply IH. congruence.
Qed.



(** X10: [update_page] of [progress_tracker.py] keeps the page in range:
    if the selected record's current page is an integer between 0 and its
    total, it still is after the call, whatever was typed, and the total is
    the same. *)
Theorem update_page_keeps_page_within (page_entry : string) (a : Tracker.app)
    (t : Tracker.Textbook)
    (Hsel : Tracker.selected a = Some t) (Hin : page_within t) :
  exists t', Tracker.selected (fst (Tracker.update_page page_entry a)) = Some t' /\
             page_within t' /\
             Tracker.total_pages t' = Tracker.total_pages t.
Proof.
  destruct Hin as (p & total & Hp & Ht & Hr).
  assert (Same : exists t', Tracker.selected a = Some t' /\ page_within t' /\
                            Tracker.total_pages t' = Tracker.total_pages t).
  { exists t. split; [exact Hsel|]. split; [now exists p, total | reflexivity]. }
  unfold Tracker.update_page. rewrite Hsel.
  destruct (isdigit page_entry); [|exact Same].
  destruct (int page_entry) as [n|[]]; try exact Same.
  rewrite Ht in *. unfold int_le. cbn [as_number bind].
  destruct (Z.leb_spec 0 n); [|exact Same].
  destruct (Z.leb_spec n total); [|exact Same].
  exists (Tracker.with_page t (PInt n)).
  split; [now apply (selected_store_selected a t)|].
  split; [|exact Ht]. exists n, total. cbn. repeat split; try assumption; lia.
Qed.

Lemma update_page_keeps_page_within_witness :
  let t := Tracker.Textbook_init (PStr "QFT") (PStr "Peskin") (PInt 258)
             (PDict []) (mkdate 2025 1 13) (mkdate 2025 5 9) (PInt 0) in
  let a := {| Tracker.textbooks := [t]; Tracker.current_textbook := Some 0%nat;
              Tracker.storage := {| Tracker.textbooks_file := None;
                                    Tracker.writable := true |} |} in
  exists t', Tracker.selected (fst (Tracker.update_page "300" a)) = Some t' /\
             page_within t' /\
             Tracker.total_pages t' = Tracker.total_pages t.
Proof.
  intros t a. apply (update_page_keeps_page_within "300" a t eq_refl).
  exists 0, 258. repeat split; try reflexivity; lia.
Defined.

Lemma save_config_fields (config : pyval) (st : QFT.state) :
  QFT.current_page (QFT.save_config config st) = QFT.current_page st /\
  QFT.completed_problems (QFT.save_config config st) = QFT.completed_problems st /\
  QFT.completed_file (QFT.save_config config st) = QFT.completed_file st /\
  QFT.writable (QFT.save_config config st) = QFT.writable st.
Proof.
  unfold QFT.save_config. destruct (QFT.writable st) eqn:W; cbn; auto.
Qed.

Lemma load_config_fields (st : QFT.state) :
  QFT.current_page (snd (QFT.load_config st)) = QFT.current_page st /\
  QFT.completed_problems (snd (QFT.load_config st)) = QFT.completed_problems st /\
  QFT.completed_file (snd (QFT.load_config st)) = QFT.completed_file st /\
  QFT.writable (snd (QFT.load_config st)) = QFT.writable st.
Proof.
  unfold QFT.load_config. destruct (QFT.config_file st) as [f|].
  - destruct (bind (json_load f) _); cbn [snd]; auto.
  - cbn [snd]. apply save_config_fields.
Qed.

(** X11: [update_page] of the other script keeps the page in range and
    touches nothing but the page and the configuration file: if the current
    page is an integer between 0 and 258 it still is after the call,
    whatever was typed, and the completion map and its file are as they
    were. *)
Theorem qft_update_page_keeps_page_within (page_entry : string) (st : QFT.state)
    (p : Z) (Hp : QFT.current_page st = PInt p) (Hr : 0 <= p <= QFT.TOTAL_PAGES) :
  let st' := fst (QFT.update_page page_entry st) in
  (exists p', QFT.current_page st' = PInt p' /\ 0 <= p' <= QFT.TOTAL_PAGES) /\
  QFT.completed_problems st' = QFT.completed_problems st /\
  QFT.completed_file st' = QFT.completed_file st.
Proof.
  cbv zeta. unfold QFT.update_page.
  assert (Same : (exists p', QFT.current_page st = PInt p' /\
                             0 <= p' <= QFT.TOTAL_PAGES) /\
                 QFT.completed_problems st = QFT.completed_problems st /\
                 QFT.completed_file st = QFT.completed_file st).
  { split; [now exists p | split; reflexivity]. }
  destruct (int page_entry) as [n|[]]; try exact Same.
  destruct (Z.leb_spec 0 n); [|exact Same].
  destruct (Z.leb_spec n QFT.TOTAL_PAGES); [|exact Same].
  cbn [andb].
  pose proof (load_config_fields (QFT.with_page st (PInt n))) as (L1 & L2 & L3 & _).
  destruct (QFT.load_config (QFT.with_page st (PInt n))) as [config st1].
  cbn [snd] in L1, L2, L3.
  assert (Done : forall s2,
            QFT.current_page s2 = QFT.current_page st1 ->
            QFT.completed_problems s2 = QFT.completed_problems st1 ->
            QFT.completed_file s2 = QFT.completed_file st1 ->
            (exists p', QFT.current_page s2 = PInt p' /\
                        0 <= p' <= QFT.TOTAL_PAGES) /\
            QFT.completed_problems s2 = QFT.completed_problems st /\
            QFT.completed_file s2 = QFT.completed_file st).
  { intros s2 E1 E2 E3. rewrite E1, E2, E3, L1, L2, L3. cbn.
    split; [exists n; split; [reflexivity | lia] | split; reflexivity]. }
  destruct (setitem config "current_page" (PInt n)) as [config'|[]]; cbn [fst];
    try (now apply Done).
  pose proof (save_config_fields config' st1) as (S1 & S2 & S3 & _).
  now apply Done.
Qed.

Lemma qft_update_page_keeps_page_within_witness :
  let st := {| QFT.completed_problems := []; QFT.current_page := PInt 80;
               QFT.completed_file := None; QFT.config_file := None;
               QFT.writable := true |} in
  let st' := fst (QFT.update_page "-3" st) in
  (exists p', QFT.current_page st' = PInt p' /\ 0 <= p' <= QFT.TOTAL_PAGES) /\
  QFT.completed_problems st' = QFT.completed_problems st /\
  QFT.completed_file st' = QFT.completed_file st.
Proof.
  intros st.
  apply (qft_update_page_keeps_page_within "-3" st 80 eq_refl).
  unfold QFT.TOTAL_PAGES. lia.
Defined.

Lemma save_config_written (config : pyval) (st : QFT.state) :
  QFT.writable st = true ->
  QFT.save_config config st =
  {| QFT.completed_problems := QFT.completed_problems st;
     QFT.current_page := QFT.current_page st;
     QFT.completed_file := QFT.completed_file st;
     QFT.config_file := Some (Json config); QFT.writable := true |}.
Proof. unfold QFT.save_config. now intros ->. Qed.



(** ** Marking problems, continued *)

Section DictRemoval.

Context {V : Type}.

Lemma dict_get_del_other (d : dict V) (k k' : string) :
  k <> k' -> dict_get k (dict_del k' d) = dict_get k d.
Proof.
  intros N. induction d as [|[k0 v0] d IH]; simpl; [reflexivity|].
  destruct (String.eqb k' k0) eqn:E; simpl.
  - apply String.eqb_eq in E. subst k0.
    apply String.eqb_neq in N. now rewrite N.
  - now rewrite IH.
Qed.

Lemma dict_del_absent (d : dict V) (k : string) :
  dict_get k d = None -> dict_del k d = d.
Proof.
  induction d as [|[k0 v0] d IH]; simpl; [reflexivity|].
  destruct (String.eqb k k0); [discriminate|]. intros H. now rewrite IH.
Qed.

End DictRemoval.

Lemma replace_nth_same {A} (l : list A) (i : nat) (x : A) :
  nth_error l i = Some x -> Tracker.replace_nth i x l = l.
Proof.
  revert i. induction l as [|z l IH]; intros [|i] H; try reflexivity.
  - cbn in *. congruence.
  - cbn in *. now rewrite IH.
Qed.

(** What the loop of [mark_problem] leaves under each key. *)
Lemma fold_mark_item (complete : bool) (selection : list tree_item) :
  forall (completed : dict pyval) (q : string),
    dict_get q (fold_left (Tracker.mark_item complete) selection completed) =
    if selects q selection
    then (if complete then Some (PDict [("complete", PBool true)]) else None)
    else dict_get q completed.
Proof.
  induction selection as [|item rest IH]; intros completed q; [reflexivity|].
  cbn [fold_left selects existsb]. rewrite IH. fold (selects q rest).
  destruct (selects q rest); [now rewrite orb_true_r|]. rewrite orb_false_r.
  destruct item as [|p]; [reflexivity|]. cbn [Tracker.mark_item].
  destruct (String.eqb p q) eqn:E.
  - apply String.eqb_eq in E. subst p.
    destruct complete; [apply dict_get_set_same | apply dict_get_del_same].
  - apply String.eqb_neq in E.
    destruct complete;
      [apply dict_get_set_other | apply dict_get_del_other]; congruence.
Qed.

(** X13: [mark_problem] of [progress_tracker.py] with any selection, with
    a record selected: each problem whose row is selected ends with the
    entry [{"complete": True}] when marking complete and with no entry when
    marking incomplete; every other problem keeps what it had; and no other
    field of the record changes.  Chapter rows in the selection count for
    nothing. *)
Theorem mark_problem_selection (complete : bool) (selection : list tree_item)
    (a : Tracker.app) (t : Tracker.Textbook)
    (Hsel : Tracker.selected a = Some t) :
  exists t',
    Tracker.selected (fst (Tracker.mark_problem complete selection a)) = Some t' /\
    (forall q,
       dict_get q (Tracker.completed_problems t') =
       if selects q selection
       then (if complete then Some (PDict [("complete", PBool true)]) else None)
       else dict_get q (Tracker.completed_problems t)) /\
    Tracker.with_completed t' (Tracker.completed_problems t) = t.
Proof.
  unfold Tracker.mark_problem. rewrite Hsel. eexists.
  split; [now apply (selected_store_selected a t)|].
  split; [intros q; apply fold_mark_item|]. now destruct t.
Qed.

Lemma mark_problem_selection_witness :
  let t := {| Tracker.name := PStr "QFT"; Tracker.author := PStr "Peskin";
              Tracker.total_pages := PInt 258; Tracker.current_page := PInt 80;
              Tracker.problems_dict := PDict [("3", PList [PStr "3.1a"; PStr "3.2"])];
              Tracker.start_date := mkdate 2025 1 13;
              Tracker.end_date := mkdate 2025 5 9;
              Tracker.completed_problems :=
                [("3.2", PDict [("complete", PBool true)])] |} in
  let a := {| Tracker.textbooks := [t]; Tracker.current_textbook := Some 0%nat;
              Tracker.storage := {| Tracker.textbooks_file := None;
                                    Tracker.writable := true |} |} in
  exists t',
    Tracker.selected
      (fst (Tracker.mark_problem true [Chapter_row; Problem_row "3.1a"] a))
    = Some t' /\
    (forall q,
       dict_get q (Tracker.completed_problems t') =
       if selects q [Chapter_row; Problem_row "3.1a"]
       then Some (PDict [("complete", PBool true)])
       else dict_get q (Tracker.completed_problems t)) /\
    Tracker.with_completed t' (Tracker.completed_problems t) = t.
Proof.
  intros t a.
  exact (mark_problem_selection true [Chapter_row; Problem_row "3.1a"] a t eq_refl).
Defined.

Lemma fold_mark_item_again (complete : bool) (selection : list tree_item) :
  forall completed : dict pyval,
    (forall q, selects q selection = true ->
       dict_get q completed =
       if complete then Some (PDict [("complete", PBool true)]) else None) ->
    fold_left (Tracker.mark_item complete) selection completed = completed.
Proof.
  induction selection as [|item rest IH]; intros completed H; [reflexivity|].
  cbn [fold_left].
  assert (E : Tracker.mark_item complete completed item = completed).
  { destruct item as [|p]; [reflexivity|]. cbn [Tracker.mark_item].
    assert (S : selects p (Problem_row p :: rest) = true).
    { cbn. now rewrite String.eqb_refl. }
    specialize (H p S).
    destruct complete; [now apply dict_set_get | now apply dict_del_absent]. }
  rewrite E. apply IH. intros q Hq. apply H. cbn [selects existsb].
  fold (selects q rest). rewrite Hq. apply orb_true_r.
Qed.

(** X14: [mark_problem] of [progress_tracker.py] is idempotent: doing the
    same marking a second time, with the same selection, leaves the
    application state (records, selection, file) as the first left it. *)
Theorem mark_problem_idempotent (complete : bool) (selection : list tree_item)
    (a : Tracker.app) :
  let a1 := fst (Tracker.mark_problem complete selection a) in
  fst (Tracker.mark_problem complete selection a1) = a1.
Proof.
  cbv zeta. destruct (Tracker.selected a) as [t|] eqn:Hsel.
  - assert (M : Tracker.mark_problem complete selection a =
                Tracker.store_selected a
                  (Tracker.with_completed t
                     (fold_left (Tracker.mark_item complete) selection
                        (Tracker.completed_problems t)))).
    { unfold Tracker.mark_problem. now rewrite Hsel. }
    rewrite M.
    set (t1 := Tracker.with_completed t
                 (fold_left (Tracker.mark_item complete) selection
                    (Tracker.completed_problems t))).
    pose proof (selected_store_selected a t t1 Hsel) as S1.
    set (a1 := fst (Tracker.store_selected a t1)) in *.
    unfold Tracker.mark_problem. rewrite S1.
    assert (F : fold_left (Tracker.mark_item complete) selection
                  (Tracker.completed_problems t1) = Tracker.completed_problems t1).
    { apply fold_mark_item_again. intros q Hq. unfold t1.
      cbn [Tracker.with_completed Tracker.completed_problems].
      now rewrite fold_mark_item, Hq. }
    rewrite F.
    assert (T : Tracker.with_completed t1 (Tracker.completed_problems t1) = t1)
      by reflexivity.
    rewrite T.
    unfold Tracker.selected in S1.
    destruct (Tracker.current_textbook a1) as [i|] eqn:C; [|discriminate].
    unfold Tracker.store_selected. rewrite C, (replace_nth_same _ _ _ S1).
    unfold a1, Tracker.store_selected, Tracker.selected in *.
    destruct (Tracker.current_textbook a) as [i0|]; [|discriminate].
    unfold Tracker.save_textbooks in *.
    destruct (Tracker.writable (Tracker.storage a)) eqn:W;
      cbn [fst Tracker.storage Tracker.textbooks Tracker.current_textbook
           Tracker.writable] in *.
    + injection C as ->. reflexivity.
    + rewrite W. cbn [fst]. now injection C as ->.
  - assert (M : Tracker.mark_problem complete selection a = (a, Tracker.Returned)).
    { unfold Tracker.mark_problem. now rewrite Hsel. }
    rewrite M. cbn [fst]. now rewrite M.
Qed.

(** ** The completion map of the other script *)

Lemma dict_contains_get {V} (d : dict V) (k : string) (v : V) :
  dict_get k d = Some v -> dict_contains k d = true.
Proof. unfold dict_contains. now intros ->. Qed.

(** X15: marking complete a problem that already has an entry keeps the
    entry's document, and every other field of the entry, and sets
    "complete" to true: marking twice does not lose the attached
    document. *)
Theorem qft_mark_complete_keeps_document (prob : string) (st : QFT.state)
    (entry : dict pyval) (doc : pyval)
    (Hentry : dict_get prob (QFT.completed_problems st) = Some (PDict entry))
    (Hdoc : dict_get "document" entry = Some doc) :
  exists st' entry',
    QFT.mark_problem true [Problem_row prob] st = (st', QFT.Marked) /\
    dict_get prob (QFT.completed_problems st') = Some (PDict entry') /\
    dict_get "complete" entry' = Some (PBool true) /\
    forall k, k <> "complete" -> dict_get k entry' = dict_get k entry.
Proof.
  unfold QFT.mark_problem. cbn [QFT.mark_items QFT.mark_item].
  rewrite Hentry. cbn [setitem bind contains].
  assert (C : dict_contains "document" (dict_set "complete" (PBool true) entry) = true).
  { apply (dict_contains_get _ _ doc).
    rewrite dict_get_set_other by discriminate. exact Hdoc. }
  rewrite C. cbn [negb bind].
  eexists. eexists. split; [reflexivity|].
  rewrite completed_after_save.
  split; [apply dict_get_set_same|].
  split; [apply dict_get_set_same|].
  intros k Hk. now apply dict_get_set_other.
Qed.

Lemma qft_mark_complete_keeps_document_witness :
  let st := {| QFT.completed_problems :=
                 [("3.2", PDict [("complete", PBool true);
                                  ("document", PStr "uploaded_documents/3.2.pdf")])];
               QFT.current_page := PInt 0;
               QFT.completed_file := None; QFT.config_file := None;
               QFT.writable := true |} in
  exists st' entry',
    QFT.mark_problem true [Problem_row "3.2"] st = (st', QFT.Marked) /\
    dict_get "3.2" (QFT.completed_problems st') = Some (PDict entry') /\
    dict_get "complete" entry' = Some (PBool true) /\
    forall k, k <> "complete" ->
      dict_get k entry' =
      dict_get k [("complete", PBool true);
                  ("document", PStr "uploaded_documents/3.2.pdf")].
Proof.
  intros st.
  exact (qft_mark_complete_keeps_document "3.2" st _
           (PStr "uploaded_documents/3.2.pdf") eq_refl eq_refl).
Defined.

(** A turn of the loop either leaves the map and the flag [changes_made]
    alone or raises the flag. *)
Lemma mark_item_flag (mark_complete : bool) (completed c1 : dict pyval)
    (changed b1 : bool) (item : tree_item) :
  QFT.mark_item mark_complete (completed, changed) item = Ok (c1, b1) ->
  (c1 = completed /\ b1 = changed) \/ b1 = true.
Proof.
  unfold QFT.mark_item. destruct item as [|p].
  - intros E. injection E as <- <-. now left.
  - destruct mark_complete.
    + intros E.
      repeat match type of E with
             | bind ?r _ = Ok _ => destruct r; cbn [bind] in E; [|discriminate]
             end.
      injection E as _ <-. now right.
    + destruct (dict_contains p completed); intros E.
      * injection E as _ <-. now right.
      * injection E as <- <-. now left.
Qed.

Lemma mark_items_flag (mark_complete : bool) (items : list tree_item) :
  forall completed completed' changed' err,
    QFT.mark_items mark_complete (completed, true) items
    = ((completed', changed'), err) ->
    changed' = true.
Proof.
  induction items as [|item rest IH]; intros completed completed' changed' err H;
    cbn [QFT.mark_items] in H.
  - now injection H as _ <- _.
  - destruct (QFT.mark_item mark_complete (completed, true) item)
      as [[c1 b1]|e] eqn:E.
    + destruct (mark_item_flag _ _ _ _ _ _ E) as [[_ ->] | ->];
        now apply (IH _ _ _ _ H).
    + now injection H as _ <- _.
Qed.

(** If the loop ends with the flag down, the map is the one it started
    with. *)
Lemma mark_items_unchanged (mark_complete : bool) (items : list tree_item) :
  forall completed changed completed' err,
    QFT.mark_items mark_complete (completed, changed) items
    = ((completed', false), err) ->
    completed' = completed.
Proof.
  induction items as [|item rest IH]; intros completed changed completed' err H;
    cbn [QFT.mark_items] in H.
  - now injection H as <- _ _.
  - destruct (QFT.mark_item mark_complete (completed, changed) item)
      as [[c1 b1]|e] eqn:E.
    + destruct (mark_item_flag _ _ _ _ _ _ E) as [[-> ->] | ->].
      * now apply (IH _ _ _ _ H).
      * apply mark_items_flag in H. discriminate.
    + now injection H as <- _ _.
Qed.



(** X17: a successful [upload_document] changes one thing in the map: the
    document of the selected problem.  The problem is still marked
    complete, the other fields of its entry and the entries of all other
    problems are as they were, and so is the current page. *)
Theorem upload_document_changes_only_the_document (prob : string)
    (rest : list tree_item) (file_path : string) (copied : bool)
    (st st' : QFT.state)
    (U : QFT.upload_document (Problem_row prob :: rest) file_path copied st
         = (st', QFT.Upload_successful)) :
  (exists entry entry',
     dict_get prob (QFT.completed_problems st) = Some (PDict entry) /\
     dict_get prob (QFT.completed_problems st') = Some (PDict entry') /\
     forall k, k <> "document" -> dict_get k entry' = dict_get k entry) /\
  marked_complete prob (QFT.completed_problems st') = true /\
  (forall q, q <> prob ->
     dict_get q (QFT.completed_problems st') = dict_get q (QFT.completed_problems st)) /\
  QFT.current_page st' = QFT.current_page st.
Proof.
  unfold QFT.upload_document in U.
  destruct (QFT.not_complete prob (QFT.completed_problems st)) as [[|]|e] eqn:N;
    try discriminate.
  pose proof (not_complete_marked _ _ N) as M.
  destruct (String.eqb file_path ""); [discriminate|].
  destruct copied; [|discriminate].
  unfold marked_complete in M. unfold dict_getitem in U.
  destruct (dict_get prob (QFT.completed_problems st)) as [[| | | | |entry]|] eqn:G;
    try discriminate.
  cbn [bind setitem] in U. injection U as <-.
  rewrite completed_after_save.
  split; [|split; [|split]].
  - exists entry. eexists. split; [reflexivity|].
    split; [apply dict_get_set_same|].
    intros k Hk. now apply dict_get_set_other.
  - unfold marked_complete. rewrite dict_get_set_same.
    rewrite dict_get_set_other by discriminate. exact M.
  - intros q Hq. now apply dict_get_set_other.
  - unfold QFT.save_completed_problems. cbn [QFT.with_completed QFT.writable].
    now destruct (QFT.writable st).
Qed.

Lemma upload_document_changes_only_the_document_witness :
  let st := {| QFT.completed_problems :=
                 [("3.1a", PDict [("complete", PBool true); ("document", PNone)]);
                  ("3.2", PDict [("complete", PBool true); ("document", PNone)])];
               QFT.current_page := PInt 80;
               QFT.completed_file := None; QFT.config_file := None;
               QFT.writable := true |} in
  exists st',
    QFT.upload_document [Problem_row "3.2"] "/home/me/work.pdf" true st
    = (st', QFT.Upload_successful) /\
    dict_get "3.1a" (QFT.completed_problems st')
    = Some (PDict [("complete", PBool true); ("document", PNone)]).
Proof.
  intros st.
  set (r := QFT.upload_document [Problem_row "3.2"] "/home/me/work.pdf" true st).
  assert (U : r = (fst r, QFT.Upload_successful)) by reflexivity.
  exists (fst r). split; [exact U|].
  destruct (upload_document_changes_only_the_document "3.2" [] "/home/me/work.pdf"
              true st (fst r) U) as (_ & _ & F & _).
  rewrite (F "3.1a"); [reflexivity | discriminate].
Defined.

(** ** Loading the files of the other script *)

Lemma legacy_dict_text (ps : list string) :
  forall acc,
    QFT.legacy_dict (map PStr ps) acc =
    Ok (fold_left (fun d p => dict_set p QFT.legacy_entry d) ps acc).
Proof.
  induction ps as [|p ps IH]; intros acc; [reflexivity|].
  cbn [map QFT.legacy_dict fold_left]. apply IH.
Qed.

Lemma fold_legacy_get (ps : list string) :
  forall (acc : dict pyval) (q : string),
    dict_get q (fold_left (fun d p => dict_set p QFT.legacy_entry d) ps acc) =
    if existsb (String.eqb q) ps then Some QFT.legacy_entry else dict_get q acc.
Proof.
  induction ps as [|p ps IH]; intros acc q; [reflexivity|].
  cbn [fold_left existsb]. rewrite IH.
  destruct (existsb (String.eqb q) ps); [now rewrite orb_true_r|].
  rewrite orb_false_r. destruct (String.eqb q p) eqn:E.
  - apply String.eqb_eq in E. subst p. apply dict_get_set_same.
  - apply String.eqb_neq in E. now apply dict_get_set_other.
Qed.

(** X18: a completion file in the old format, a list of problem
    identifiers, loads as a map in which exactly the listed problems have an
    entry, each marked complete and without document. *)
Theorem legacy_list_loads_as_complete (ps : list string) :
  forall q,
    dict_get q (QFT.load_completed_problems (Some (Json (PList (map PStr ps))))) =
    if existsb (String.eqb q) ps
    then Some (PDict [("complete", PBool true); ("document", PNone)])
    else None.
Proof.
  intros q. unfold QFT.load_completed_problems. cbn [json_load].
  rewrite legacy_dict_text. now rewrite fold_legacy_get.
Qed.

(** X19: whatever the configuration file holds, and also when it is
    missing or is not JSON, the value [load_config] returns has the key
    "current_page"; when the file holds an object, the value is that object
    with its settings as they are, "current_page" added as 0 when it was
    absent, and nothing is written. *)
Theorem load_config_has_current_page (st : QFT.state) :
  contains "current_page" (fst (QFT.load_config st)) = Ok true /\
  (forall d, QFT.config_file st = Some (Json (PDict d)) ->
     exists d',
       QFT.load_config st = (PDict d', st) /\
       (forall k, k <> "current_page" -> dict_get k d' = dict_get k d) /\
       dict_get "current_page" d' =
       match dict_get "current_page" d with
       | Some page => Some page
       | None => Some (PInt 0)
       end).
Proof.
  split.
  - unfold QFT.load_config. destruct (QFT.config_file st) as [f|]; [|reflexivity].
    destruct f as [|config]; [reflexivity|]. cbn [json_load bind].
    destruct (contains "current_page" config) as [[|]|e] eqn:C; cbn [bind fst].
    + exact C.
    + destruct config; try reflexivity. cbn [setitem fst contains].
      unfold dict_contains. now rewrite dict_get_set_same.
    + reflexivity.
  - intros d Hf. unfold QFT.load_config. rewrite Hf. cbn [json_load bind contains].
    unfold dict_contains.
    destruct (dict_get "current_page" d) as [page|] eqn:G; cbn [bind setitem].
    + exists d. split; [reflexivity|]. split; [reflexivity | exact G].
    + eexists. split; [reflexivity|].
      split; [intros k Hk; now apply dict_get_set_other | apply dict_get_set_same].
Qed.

Lemma load_config_has_current_page_witness :
  let st := {| QFT.completed_problems := []; QFT.current_page := PInt 0;
               QFT.completed_file := None;
               QFT.config_file := Some (Json (PDict [("theme", PStr "dark")]));
               QFT.writable := true |} in
  exists d',
    QFT.load_config st = (PDict d', st) /\
    (forall k, k <> "current_page" ->
       dict_get k d' = dict_get k [("theme", PStr "dark")]) /\
    dict_get "current_page" d' = Some (PInt 0).
Proof.
  intros st.
  exact (proj2 (load_config_has_current_page st) [("theme", PStr "dark")] eq_refl).
Defined.

(** ** The derived figures, continued *)

Lemma lt_not_le (a b : date) :
  valid a = true -> valid b = true -> lt a b = true -> le b a = false.
Proof.
  intros Va Vb L. destruct (le b a) eqn:E; [|reflexivity].
  pose proof (toordinal_lt a b Va Vb L). pose proof (toordinal_le b a Vb Va E). lia.
Qed.

Lemma update_display_returns (today : date) (t : Tracker.Textbook) (tp cp : Z) :
  Tracker.total_pages t = PInt tp -> Tracker.current_page t = PInt cp ->
  exists d, Tracker.update_display today t = Ok d.
Proof.
  intros Htp Hcp. unfold Tracker.update_display. cbv zeta.
  destruct (semester_quotient
              (if le (Tracker.start_date t) today
               then Z.max 0 (sub_days today (Tracker.start_date t)) else 0)
              (sub_days (Tracker.end_date t) (Tracker.start_date t)))
    as (sq & -> & _).
  cbn [bind].
  destruct (textbook_quotient (Tracker.current_page t) (Tracker.total_pages t))
    as (_ & _ & T).
  destruct (pace_quotient (Tracker.current_page t) (Tracker.total_pages t)
              (if le today (Tracker.end_date t)
               then Z.max 0 (sub_days (Tracker.end_date t) today) else 0))
    as (_ & P).
  cbv zeta in T, P.
  destruct (T cp tp Hcp Htp) as [tq ->]. destruct (P cp tp Hcp Htp) as [pq ->].
  cbn [bind]. now eexists.
Qed.



Lemma quotient_nonneg (a b : Z) :
  0 <= a -> 0 < b -> (0 <= inject_Z a / inject_Z b)%Q.
Proof.
  intros A B. destruct b as [|b|b]; try lia.
  unfold Qle, Qdiv, Qmult, Qinv, inject_Z. cbn [Qnum Qden]. lia.
Qed.

(** The figures [update_widget] returns for an integer page. *)
Lemma update_widget_figures (today : date) (n : Z) :
  exists w,
    QFT.update_widget today (PInt n) = Ok w /\
    QFT.semester_percentage w
    = (inject_Z (QFT.days_elapsed w) / inject_Z 116 * 100)%Q /\
    QFT.textbook_percentage w = (inject_Z n / inject_Z 258 * 100)%Q /\
    QFT.expected_page w
    = (inject_Z (QFT.days_elapsed w) / inject_Z 116 * inject_Z 258)%Q /\
    QFT.pages_per_day w
    = (if 0 <? QFT.days_left w
       then Some (inject_Z (258 - n) / inject_Z (QFT.days_left w))%Q
       else None).
Proof.
  unfold QFT.update_widget.
  destruct (if lt today QFT.SEMESTER_START then _ else _) as [e l].
  rewrite (truediv_nonzero e QFT.TOTAL_SEMESTER_DAYS) by discriminate.
  cbn [as_number bind].
  rewrite (truediv_nonzero _ QFT.TOTAL_PAGES) by discriminate. cbn [bind].
  destruct (Z.ltb_spec 0 l) as [L|L].
  - rewrite truediv_nonzero by lia. cbn [bind]. eexists. split; [reflexivity|].
    cbn [QFT.semester_percentage QFT.textbook_percentage QFT.expected_page
         QFT.pages_per_day QFT.days_elapsed QFT.days_left].
    destruct (Z.ltb_spec 0 l); [|lia]. repeat split.
  - cbn [bind]. eexists. split; [reflexivity|].
    cbn [QFT.semester_percentage QFT.textbook_percentage QFT.expected_page
         QFT.pages_per_day QFT.days_elapsed QFT.days_left].
    destruct (Z.ltb_spec 0 l); [lia|]. repeat split.
Qed.





(** ** Comprehensions and sorting *)

Section Comprehensions.

Context {A B : Type}.

Lemma mapM_pure (f : A -> result B) (g : A -> B) (xs : list A) :
  (forall x, In x xs -> f x = Ok (g x)) -> mapM f xs = Ok (map g xs).
Proof.
  induction xs as [|x xs IH]; intros H; [reflexivity|].
  cbn [mapM map]. rewrite (H x) by now left. cbn [bind].
  rewrite IH; [reflexivity|]. intros y Hy. apply H. now right.
Qed.

Lemma mapM_in (f : A -> result B) (xs : list A) (ys : list B) (y : B) :
  mapM f xs = Ok ys -> In y ys -> exists x, In x xs /\ f x = Ok y.
Proof.
  revert ys. induction xs as [|x xs IH]; intros ys H Hy; cbn [mapM] in H.
  - injection H as <-. destruct Hy.
  - destruct (f x) as [y0|] eqn:E; cbn [bind] in H; [|discriminate].
    destruct (mapM f xs) as [ys0|]; cbn [bind] in H; [|discriminate].
    injection H as <-. destruct Hy as [<-|Hy].
    + exists x. split; [now left | exact E].
    + destruct (IH ys0 eq_refl Hy) as (x' & Hx & Hf). exists x'.
      split; [now right | exact Hf].
Qed.

Lemma mapM_raises (f : A -> result B) (xs : list A) (e : exn) :
  (forall x e', In x xs -> f x = Raise e' -> e' = e) ->
  (exists x, In x xs /\ forall y, f x <> Ok y) ->
  mapM f xs = Raise e.
Proof.
  induction xs as [|x xs IH]; intros Only (x0 & Hin & Hx); [destruct Hin|].
  cbn [mapM]. destruct (f x) as [y|e'] eqn:E; cbn [bind].
  - destruct Hin as [->|Hin]; [now destruct (Hx y)|].
    rewrite IH; [reflexivity | |now exists x0].
    intros x1 e1 H1. apply Only. now right.
  - rewrite (Only x e'); [reflexivity | now left | exact E].
Qed.

End Comprehensions.

Lemma mapM_map {A B C} (f : B -> result C) (g : A -> B) (xs : list A) :
  mapM f (map g xs) = mapM (fun x => f (g x)) xs.
Proof.
  induction xs as [|x xs IH]; [reflexivity|]. cbn [map mapM]. now rewrite IH.
Qed.

Section Sorting.

Context {A : Type}.

Lemma insert_sorted_perm (k : Z) (x : A) (l : list (Z * A)) :
  Permutation (insert_sorted k x l) ((k, x) :: l).
Proof.
  induction l as [|[k' y] l IH]; cbn [insert_sorted]; [reflexivity|].
  destruct (k <=? k'); [reflexivity|].
  rewrite IH. apply perm_swap.
Qed.

Lemma sort_pairs_perm (l : list (Z * A)) : Permutation (sort_pairs l) l.
Proof.
  induction l as [|[k x] l IH]; [reflexivity|].
  cbn [sort_pairs fold_right fst snd]. rewrite insert_sorted_perm.
  now apply perm_skip.
Qed.

Lemma insert_sorted_sorted (k : Z) (x : A) (l : list (Z * A)) :
  StronglySorted (fun p q => fst p <= fst q) l ->
  StronglySorted (fun p q => fst p <= fst q) (insert_sorted k x l).
Proof.
  induction 1 as [|[k' y] l S IH F]; cbn [insert_sorted].
  - constructor; constructor.
  - destruct (Z.leb_spec k k').
    + constructor; [now constructor|]. constructor; [exact H|].
      eapply Forall_impl; [|exact F]. cbn. intros; lia.
    + constructor; [exact IH|].
      eapply Permutation_Forall;
        [symmetry; apply insert_sorted_perm|].
      constructor; [cbn; lia | exact F].
Qed.

Lemma sort_pairs_sorted (l : list (Z * A)) :
  StronglySorted (fun p q => fst p <= fst q) (sort_pairs l).
Proof.
  induction l as [|[k x] l IH]; [constructor|].
  cbn [sort_pairs fold_right fst snd]. now apply insert_sorted_sorted.
Qed.

End Sorting.

Lemma insert_sorted_map {A B} (f : A -> B) (k : Z) (x : A) (l : list (Z * A)) :
  insert_sorted k (f x) (map (fun p => (fst p, f (snd p))) l) =
  map (fun p => (fst p, f (snd p))) (insert_sorted k x l).
Proof.
  induction l as [|[k' y] l IH]; [reflexivity|].
  cbn [map insert_sorted fst snd]. destruct (k <=? k'); [reflexivity|].
  cbn [map fst snd]. now rewrite IH.
Qed.

(** Sorting the images is sorting, then taking the images. *)
Lemma sorted_by_map {A B} (f : A -> B) (key : B -> result Z) (xs ys : list A) :
  sorted_by (fun x => key (f x)) xs = Ok ys ->
  sorted_by key (map f xs) = Ok (map f ys).
Proof.
  unfold sorted_by.
  destruct (mapM (fun x => k <- key (f x) ;; Ok (k, x)) xs) as [keys|] eqn:E;
    cbn [bind]; [|discriminate].
  intros H. injection H as <-.
  assert (M : mapM (fun y => k <- key y ;; Ok (k, y)) (map f xs) =
              Ok (map (fun p => (fst p, f (snd p))) keys)).
  { clear -E. revert keys E. induction xs as [|x xs IH]; intros keys E; cbn in E.
    - now injection E as <-.
    - cbn [map mapM]. destruct (key (f x)) as [k|]; cbn [bind] in *; [|discriminate].
      destruct (mapM (fun x => k <- key (f x) ;; Ok (k, x)) xs) as [keys0|];
        cbn [bind] in E; [|discriminate].
      injection E as <-. now rewrite (IH keys0 eq_refl). }
  rewrite M. cbn [bind]. f_equal.
  fold (sort_pairs keys). fold (sort_pairs (map (fun p => (fst p, f (snd p))) keys)).
  assert (S : sort_pairs (map (fun p => (fst p, f (snd p))) keys) =
              map (fun p => (fst p, f (snd p))) (sort_pairs keys)).
  { clear. induction keys as [|[k x] keys IH]; [reflexivity|].
    cbn [map sort_pairs fold_right fst snd].
    fold (sort_pairs keys).
    fold (sort_pairs (map (fun p => (fst p, f (snd p))) keys)).
    now rewrite IH, insert_sorted_map. }
  rewrite S, !map_map. reflexivity.
Qed.

(** What [sorted] returns: the same elements, in the order of their keys. *)
Lemma sorted_by_spec (xs ys : list string) :
  sorted_by int xs = Ok ys ->
  Permutation ys xs /\ StronglySorted numeric_le ys.
Proof.
  unfold sorted_by.
  destruct (mapM (fun x => k <- int x ;; Ok (k, x)) xs) as [keys|] eqn:E;
    cbn [bind]; [|discriminate].
  intros H. injection H as <-. fold (sort_pairs keys).
  assert (K : forall p, In p keys -> int (snd p) = Ok (fst p)).
  { intros p Hp. destruct (mapM_in _ _ _ _ E Hp) as (x & _ & Hx).
    destruct (int x) as [k|] eqn:Ex; cbn [bind] in Hx; [|discriminate].
    injection Hx as <-. exact Ex. }
  assert (X : map snd keys = xs).
  { clear -E. revert keys E. induction xs as [|x xs IH]; intros keys E; cbn in E.
    - now injection E as <-.
    - destruct (int x) as [k|]; cbn [bind] in E; [|discriminate].
      destruct (mapM (fun x => k <- int x ;; Ok (k, x)) xs) as [keys0|];
        cbn [bind] in E; [|discriminate].
      injection E as <-. cbn. now rewrite (IH keys0 eq_refl). }
  split.
  - rewrite <- X. apply Permutation_map. apply sort_pairs_perm.
  - assert (K' : forall p, In p (sort_pairs keys) -> int (snd p) = Ok (fst p)).
    { intros p Hp. apply K.
      eapply Permutation_in; [apply sort_pairs_perm | exact Hp]. }
    pose proof (sort_pairs_sorted keys) as S.
    induction S as [|p l S IH F]; [constructor|].
    cbn [map]. constructor.
    + apply IH. intros q Hq. apply K'. now right.
    + apply Forall_map. rewrite Forall_forall in *. intros q Hq.
      exists (fst p), (fst q).
      split; [apply K'; now left|]. split; [apply K'; now right | now apply F].
Qed.

(** ** The problem tree *)

Lemma dict_get_problems_value (problems : dict (list string)) (k : string) :
  dict_get k (map (fun kv => (fst kv, PList (map PStr (snd kv)))) problems) =
  option_map (fun ps => PList (map PStr ps)) (dict_get k problems).
Proof.
  induction problems as [|[k' ps] problems IH]; [reflexivity|].
  cbn [map dict_get fst snd]. now destruct (String.eqb k k').
Qed.

Lemma dict_get_in_keys {V} (d : dict V) (k : string) :
  In k (map fst d) -> exists v, dict_get k d = Some v.
Proof.
  induction d as [|[k' v] d IH]; [intros []|].
  cbn [map fst dict_get]. destruct (String.eqb k k') eqn:E; [now eexists|].
  intros [->|H]; [now rewrite String.eqb_refl in E | now apply IH].
Qed.

Lemma chapter_rows_parsed (t : Tracker.Textbook) (problems : dict (list string))
    (k : string) :
  Tracker.problems_dict t = Tracker.problems_value problems ->
  In k (map fst problems) ->
  Tracker.chapter_rows t (PStr k) =
  Ok (PStr k,
      match dict_get k problems with
      | Some ps =>
          map (fun p => (PStr p, dict_contains p (Tracker.completed_problems t))) ps
      | None => []
      end).
Proof.
  intros Hp Hk. unfold Tracker.chapter_rows. rewrite Hp.
  unfold Tracker.problems_value. cbn [subscript]. unfold dict_getitem.
  rewrite dict_get_problems_value.
  destruct (dict_get_in_keys problems k Hk) as [ps ->].
  cbn [option_map bind iter]. rewrite mapM_map.
  rewrite (mapM_pure _
             (fun p => (PStr p, dict_contains p (Tracker.completed_problems t))));
    [reflexivity|].
  intros p _. reflexivity.
Qed.



(** X24: for a record whose chapter map came from the parser, one chapter
    key that does not read as an integer (the parser accepts any token)
    makes [update_tree] raise [ValueError]: such a textbook can be added but
    its problems cannot be shown. *)
Theorem update_tree_of_unnumbered_chapter (t : Tracker.Textbook)
    (problems : dict (list string)) (k : string)
    (Hp : Tracker.problems_dict t = Tracker.problems_value problems)
    (Hin : In k (map fst problems))
    (Hk : forall n, int k <> Ok n) :
  Tracker.update_tree (Some t) = Raise ValueError.
Proof.
  unfold Tracker.update_tree. rewrite Hp.
  unfold Tracker.problems_value. cbn [iter bind]. rewrite map_map. cbn [fst].
  unfold sorted_by.
  rewrite (mapM_raises (fun x => k0 <- int_val x ;; Ok (k0, x)) _ ValueError);
    [reflexivity | |].
  - intros x e Hx. apply in_map_iff in Hx. destruct Hx as ([k' ps] & <- & _).
    cbn [int_val fst]. destruct (int k') eqn:E; cbn [bind]; [discriminate|].
    intros H. injection H as <-. now apply (int_raises k').
  - exists (PStr k). split.
    + apply in_map_iff in Hin. destruct Hin as ([k' ps] & <- & Hin).
      apply in_map_iff. now exists (k', ps).
    + intros y. cbn [int_val]. destruct (int k) as [n|] eqn:E; cbn [bind].
      * now destruct (Hk n).
      * discriminate.
Qed.

Lemma update_tree_of_unnumbered_chapter_witness :
  exists problems,
    Tracker.parse_problems ("Chapter A" ++ nl ++ "A.1, A.2")%string = Ok problems /\
    Tracker.update_tree
      (Some (Tracker.Textbook_init (PStr "QFT") (PStr "Peskin") (PInt 258)
               (Tracker.problems_value problems) (mkdate 2025 1 13)
               (mkdate 2025 5 9) (PInt 0)))
    = Raise ValueError.
Proof.
  exists [("A", ["A.1"; "A.2"])]. split; [reflexivity|].
  apply (update_tree_of_unnumbered_chapter _ [("A", ["A.1"; "A.2"])] "A").
  - reflexivity.
  - now left.
  - intros n. vm_compute. discriminate.
Defined.

(** ** The problem tree of the single-textbook script *)

Lemma mapM_proj {A B} (f : A -> result B) (g : B -> A) (xs : list A) (ys : list B) :
  (forall x y, f x = Ok y -> g y = x) -> mapM f xs = Ok ys -> map g ys = xs.
Proof.
  intros G. revert ys. induction xs as [|x xs IH]; intros ys H; cbn [mapM] in H.
  - now injection H as <-.
  - destruct (f x) as [y|] eqn:E; cbn [bind] in H; [|discriminate].
    destruct (mapM f xs) as [ys0|]; cbn [bind] in H; [|discriminate].
    injection H as <-. cbn [map]. now rewrite (G x y E), (IH ys0 eq_refl).
Qed.

Lemma mapM_all {A B} (f : A -> result B) (xs : list A) :
  (forall x, In x xs -> exists y, f x = Ok y) -> exists ys, mapM f xs = Ok ys.
Proof.
  induction xs as [|x xs IH]; intros H; [now eexists|].
  cbn [mapM]. destruct (H x) as [y ->]; [now left|]. cbn [bind].
  destruct IH as [ys ->]; [intros x' Hx'; apply H; now right|]. now eexists.
Qed.

Lemma dict_get_in {V} (d : dict V) (k : string) (v : V) :
  dict_get k d = Some v -> In (k, v) d.
Proof.
  induction d as [|[k' v'] d IH]; [discriminate|]. cbn [dict_get].
  destruct (String.eqb_spec k k') as [->|_].
  - intros H. injection H as ->. now left.
  - intros H. right. now apply IH.
Qed.

Lemma split_ws_step (c c' : ascii) (s : string) :
  is_space c = false -> is_space c' = false ->
  split_ws (String c (String c' s)) =
  match split_ws (String c' s) with
  | t :: ts => String c t :: ts
  | [] => [String c ""%string]
  end.
Proof.
  intros H H'.
  change (split_ws (String c (String c' s))) with
    (if is_space c then split_ws (String c' s)
     else if is_space c' then String c ""%string :: split_ws (String c' s)
          else match split_ws (String c' s) with
               | t :: ts => String c t :: ts
               | [] => [String c ""%string]
               end).
  now rewrite H, H'.
Qed.

(** A text with no whitespace is the first token of itself, and of itself
    followed by a space and anything. *)
Lemma split_ws_first (p r : string) :
  no_space p = true -> p <> ""%string ->
  r = ""%string \/ (exists r', r = String " " r') ->
  exists ts, split_ws (p ++ r)%string = p :: ts.
Proof.
  intros N E R. induction p as [|c p IH]; [congruence|].
  cbn [no_space] in N. apply andb_prop in N. destruct N as [Nc Np].
  apply negb_true_iff in Nc. destruct p as [|c' p'].
  - cbn [append split_ws]. rewrite Nc.
    destruct R as [->|[r' ->]]; [now exists []|].
    change (is_space " ") with true. cbv iota. now eexists.
  - destruct IH as [ts IH]; [exact Np | discriminate|].
    pose proof Np as Nc'. cbn [no_space] in Nc'. apply andb_prop in Nc'.
    destruct Nc' as [Nc' _]. apply negb_true_iff in Nc'.
    cbn [append] in *. rewrite (split_ws_step c c' _ Nc Nc'), IH. now eexists.
Qed.

Lemma listed_tokens (prob : string) :
  listed prob -> no_space prob = true /\ prob <> ""%string.
Proof.
  intros (chapter & probs & Hc & Hp). apply dict_get_in in Hc.
  assert (T : forallb (fun kv : string * list string =>
                         forallb (fun p => no_space p && negb (String.eqb p ""))
                                 (snd kv)) QFT.all_problems_dict = true)
    by (vm_compute; reflexivity).
  rewrite forallb_forall in T. specialize (T _ Hc). cbn [snd] in T.
  rewrite forallb_forall in T. specialize (T _ Hp).
  apply andb_prop in T. destruct T as [N E]. split; [exact N|].
  apply negb_true_iff in E. now apply String.eqb_neq.
Qed.

Lemma treeview_chapters_sorted :
  sorted_by int (map fst QFT.all_problems_dict) = Ok (map fst QFT.all_problems_dict).
Proof. vm_compute. reflexivity. Qed.

Lemma display_text_cases (completed : dict pyval) (prob text : string) :
  QFT.display_text completed prob = Ok text ->
  if marked_complete prob completed
  then exists suffix,
         text = (prob ++ "  " ++ QFT.tick ++ suffix)%string /\
         (suffix = ""%string \/ suffix = " (doc)"%string)
  else text = prob.
Proof.
  unfold QFT.display_text, marked_complete.
  destruct (dict_get prob completed) as [entry|];
    [|intros H; now injection H as <-].
  destruct entry as [ | | | | |d]; cbn [get bind]; try discriminate.
  destruct (dict_get "complete" d) as [c|]; cbn [truthy];
    [|intros H; now injection H as <-].
  destruct (truthy c); [|intros H; now injection H as <-].
  intros H. injection H as <-. eexists. split; [reflexivity|].
  destruct (truthy _); [now right | now left].
Qed.

Lemma treeview_chapter_rows (completed : dict pyval) (x chapter : string)
    (items : list (string * string)) :
  QFT.treeview_chapter completed x = Ok (chapter, items) ->
  x = chapter /\
  dict_get chapter QFT.all_problems_dict = Some (map snd items) /\
  forall text prob, In (text, prob) items ->
    QFT.display_text completed prob = Ok text.
Proof.
  unfold QFT.treeview_chapter, dict_getitem.
  destruct (dict_get x QFT.all_problems_dict) as [probs|] eqn:D;
    cbn [bind]; [|discriminate].
  destruct (mapM _ probs) as [rows|] eqn:M; cbn [bind]; [|discriminate].
  intros H. injection H as <- <-. split; [reflexivity|]. split.
  - rewrite D. f_equal. symmetry. apply (mapM_proj _ snd) in M; [exact M|].
    intros p y. destruct (QFT.display_text completed p); cbn [bind]; [|discriminate].
    intros H. now injection H as <-.
  - intros text prob Hin. destruct (mapM_in _ _ _ _ M Hin) as (p & _ & Hp).
    destruct (QFT.display_text completed p) as [t|] eqn:T; cbn [bind] in Hp;
      [|discriminate].
    injection Hp as <- <-. exact T.
Qed.

(** X25: when [update_treeview] returns, the tree has one chapter row for
    each chapter of the built-in table, in the table's order; under a chapter
    there is one row for each of its problems, in order; and for every
    problem row the first whitespace-separated token of the shown text is
    the problem identifier, which is how [mark_problem] and
    [upload_document] read the identifier back.  The text is the bare
    identifier for a problem that is not marked complete, and the identifier,
    two spaces, a tick and possibly [ (doc)] for one that is. *)
Theorem update_treeview_rows (completed : dict pyval)
    (rows : list (string * list (string * string)))
    (H : QFT.update_treeview completed = Ok rows) :
  map fst rows = map fst QFT.all_problems_dict /\
  forall chapter items, In (chapter, items) rows ->
    dict_get chapter QFT.all_problems_dict = Some (map snd items) /\
    forall text prob, In (text, prob) items ->
      list_getitem (split_ws text) 0 = Ok prob /\
      if marked_complete prob completed
      then exists suffix,
             text = (prob ++ "  " ++ QFT.tick ++ suffix)%string /\
             (suffix = ""%string \/ suffix = " (doc)"%string)
      else text = prob.
Proof.
  unfold QFT.update_treeview in H. rewrite treeview_chapters_sorted in H.
  cbn [bind] in H. split.
  - apply (mapM_proj _ fst) in H; [exact H|].
    intros x [chapter items] Hx. cbn [fst]. symmetry.
    now apply (treeview_chapter_rows completed x chapter items).
  - intros chapter items Hin. destruct (mapM_in _ _ _ _ H Hin) as (x & _ & Hx).
    destruct (treeview_chapter_rows _ _ _ _ Hx) as (_ & Hc & Ht).
    split; [exact Hc|]. intros text prob Hp.
    assert (L : listed prob).
    { exists chapter, (map snd items). split; [exact Hc|].
      apply in_map_iff. now exists (text, prob). }
    destruct (listed_tokens prob L) as [N E].
    pose proof (display_text_cases completed prob text (Ht text prob Hp)) as C.
    split; [|exact C].
    destruct (marked_complete prob completed).
    + destruct C as (suffix & -> & _).
      destruct (split_ws_first prob ("  " ++ QFT.tick ++ suffix)%string N E)
        as [ts ->]; [right; now eexists | reflexivity].
    + subst text. destruct (split_ws_first prob "" N E) as [ts T]; [now left|].
      assert (A : (prob ++ "")%string = prob).
      { clear. induction prob as [|c p IH]; [reflexivity|]. cbn. now rewrite IH. }
      rewrite A in T. now rewrite T.
Qed.

Lemma update_treeview_rows_witness :
  exists rows,
    QFT.update_treeview
      [("2.3", PDict [("complete", PBool true); ("document", PStr "uploads/2.3.pdf")])]
    = Ok rows /\
    map fst rows = map fst QFT.all_problems_dict.
Proof.
  eexists. split; [vm_compute; reflexivity|].
  refine (proj1 (update_treeview_rows
                   [("2.3", PDict [("complete", PBool true);
                                   ("document", PStr "uploads/2.3.pdf")])]
                   _ _)).
  vm_compute. reflexivity.
Defined.

(** X26: [update_treeview] returns whenever the entry of every problem of
    the built-in table that has one is an object; entries of other
    identifiers are never looked at. *)
Theorem update_treeview_returns (completed : dict pyval)
    (H : forall prob, listed prob -> entry_is_record prob completed = true) :
  exists rows, QFT.update_treeview completed = Ok rows.
Proof.
  unfold QFT.update_treeview. rewrite treeview_chapters_sorted. cbn [bind].
  apply mapM_all. intros chapter Hin.
  destruct (dict_get_in_keys _ _ Hin) as [probs Hc].
  unfold QFT.treeview_chapter, dict_getitem. rewrite Hc. cbn [bind].
  destruct (mapM_all (fun prob => text <- QFT.display_text completed prob ;;
                                  Ok (text, prob)) probs) as [items ->];
    [|now eexists].
  intros prob Hp. assert (L : listed prob) by now exists chapter, probs.
  specialize (H prob L). unfold entry_is_record in H. unfold QFT.display_text.
  destruct (dict_get prob completed) as [entry|]; [|now eexists].
  destruct entry as [ | | | | |d]; try discriminate.
  cbn [get bind]. destruct (truthy _); now eexists.
Qed.

Lemma update_treeview_returns_witness :
  exists rows, QFT.update_treeview [("2.3", PDict [])] = Ok rows.
Proof.
  apply update_treeview_returns. intros prob L. unfold entry_is_record.
  cbn [dict_get]. destruct (String.eqb prob "2.3"); reflexivity.
Defined.

(** X27: an entry of a problem of the built-in table that is not an object
    (the loader returns the stored object unchecked) makes
    [update_treeview] raise [AttributeError]. *)
Theorem update_treeview_needs_records (completed : dict pyval) (prob : string)
    (L : listed prob)
    (H : entry_is_record prob completed = false) :
  QFT.update_treeview completed = Raise AttributeError.
Proof.
  unfold QFT.update_treeview. rewrite treeview_chapters_sorted. cbn [bind].
  assert (D : forall p e, QFT.display_text completed p = Raise e -> e = AttributeError).
  { intros p e. unfold QFT.display_text.
    destruct (dict_get p completed) as [entry|]; [|discriminate].
    destruct entry as [ | | | | |d]; cbn [get bind];
      try (intros X; now injection X as <-).
    destruct (truthy _); discriminate. }
  destruct L as (chapter & probs & Hc & Hp).
  apply mapM_raises.
  - intros x e Hx. destruct (dict_get_in_keys _ _ Hx) as [ps Hps].
    unfold QFT.treeview_chapter, dict_getitem. rewrite Hps. cbn [bind].
    destruct (mapM _ ps) as [items|e'] eqn:M; cbn [bind]; [discriminate|].
    intros X. injection X as <-.
    clear -M D. revert e' M. induction ps as [|p ps IH]; intros e' M; [discriminate|].
    cbn [mapM] in M. destruct (QFT.display_text completed p) as [t|e0] eqn:T;
      cbn [bind] in M.
    + destruct (mapM _ ps) as [items|e1]; cbn [bind] in M; [discriminate|].
      injection M as <-. now apply IH.
    + injection M as <-. now apply (D p).
  - exists chapter. split.
    + apply dict_get_in in Hc. apply in_map_iff. now exists (chapter, probs).
    + intros [c items] X.
      destruct (treeview_chapter_rows _ _ _ _ X) as (<- & Hc' & Ht).
      rewrite Hc in Hc'. injection Hc' as ->.
      apply in_map_iff in Hp. destruct Hp as ([text p] & <- & Hin). cbn [snd] in H.
      specialize (Ht text p Hin). unfold QFT.display_text in Ht.
      unfold entry_is_record in H.
      destruct (dict_get p completed) as [entry|]; [|discriminate].
      destruct entry; cbn [get bind] in Ht; discriminate.
Qed.

Lemma update_treeview_needs_records_witness :
  QFT.update_treeview [("2.3", PBool true)] = Raise AttributeError.
Proof.
  apply (update_treeview_needs_records [("2.3", PBool true)] "2.3").
  - exists "2", ["2.1a"; "2.1b"; "2.2a"; "2.2b"; "2.2c"; "2.2d"; "2.3"]%string.
    split; [reflexivity|]. cbn [In]. tauto.
  - reflexivity.
Defined.
